(** * Capital.com trading bot: price extraction, signal and orchestration

    A shallow embedding of [app/bot.py], [app/capital_client.py],
    [app/config.py] and, from the parsed arguments on, [app/main.py].

    Conventions of the embedding.
    - Python values that come out of [response.json()] are the inductive
      [pyval]; a [dict] is a [gmap string pyval].
    - In the first embedding Python numbers ([int] and [float]) are exact
      rationals [Q], compared with [Qeq]/[Qlt]; it serves the statements that
      do not depend on rounding.  [Module Binary64] embeds lines 15-37 of
      [app/bot.py] again with Python's own numbers, unbounded [int] and
      binary64 [float]; what depends on rounding or on the range of a double
      is stated there.
    - A raised exception is the [Err] branch of [result], carrying the
      Python exception class.
    - Calls on the client object are recorded in a call log that the
      orchestrator threads through (a call-count double).
    - Environment values and header names are ASCII text: [strip] removes
      ASCII whitespace and [lower] maps the letters A to Z. *)

From Stdlib Require Import Ascii String QArith Lqa Floats.
From stdpp Require Import gmap strings list fin_maps.

Local Open Scope string_scope.

(** ** Exceptions and the error monad *)

Inductive exn : Type :=
| ValueError (msg : string)
| RuntimeError (msg : string)
| TypeError
| AttributeError
| StatisticsError
| OverflowError
| HTTPError (status : Z)
| JSONDecodeError
| TransportError.

Inductive result (A : Type) : Type :=
| Ok (a : A)
| Err (e : exn).
Arguments Ok {A} a.
Arguments Err {A} e.

Definition rbind {A B} (r : result A) (k : A -> result B) : result B :=
  match r with
  | Ok a => k a
  | Err e => Err e
  end.

Notation "x <-? r ;; k" := (rbind r (fun x => k))
  (at level 100, r at next level, right associativity).

(** ** Python values *)

Set Warnings "-register-all".

Inductive pyval : Type :=
| PNone
| PBool (b : bool)
| PNum (q : Q)
| PStr (s : string)
| PList (l : list pyval)
| PDict (d : gmap string pyval).

(** [bool(v)] *)
Definition truthy (v : pyval) : bool :=
  match v with
  | PNone => false
  | PBool b => b
  | PNum q => negb (Qeq_bool q 0)
  | PStr s => negb (String.eqb s EmptyString)
  | PList l => match l with [] => false | _ => true end
  | PDict d => negb (bool_decide (d = ∅))
  end.

(** [v is not None] *)
Definition is_not_none (v : pyval) : bool :=
  match v with PNone => false | _ => true end.

(** Numeric view of a value: [bool] is a subclass of [int]. *)
Definition as_number (v : pyval) : option Q :=
  match v with
  | PNum q => Some q
  | PBool true => Some 1%Q
  | PBool false => Some 0%Q
  | _ => None
  end.

(** [a + b] *)
Definition py_add (a b : pyval) : result pyval :=
  match as_number a, as_number b with
  | Some x, Some y => Ok (PNum (x + y))
  | _, _ =>
      match a, b with
      | PStr s, PStr t => Ok (PStr (s ++ t))
      | PList l, PList m => Ok (PList (l ++ m))
      | _, _ => Err TypeError
      end
  end.

(** [v / 2] *)
Definition py_div2 (v : pyval) : result Q :=
  match as_number v with
  | Some x => Ok (x / 2)%Q
  | None => Err TypeError
  end.

(** [v.get(key)] and [v.get(key, default)]; only [dict] has the method. *)
Definition py_get_default (v : pyval) (key : string) (dflt : pyval) : result pyval :=
  match v with
  | PDict d => Ok (default dflt (d !! key))
  | _ => Err AttributeError
  end.

Definition py_get (v : pyval) (key : string) : result pyval :=
  py_get_default v key PNone.

Fixpoint chars (s : string) : list pyval :=
  match s with
  | EmptyString => []
  | String c s' => PStr (String c EmptyString) :: chars s'
  end.

(** [for x in v]: the elements of a list, the characters of a string, the
    keys of a dict. *)
Definition py_iter (v : pyval) : result (list pyval) :=
  match v with
  | PList l => Ok l
  | PStr s => Ok (chars s)
  | PDict d => Ok (PStr <$> (map_to_list d).*1)
  | _ => Err TypeError
  end.

(** ** [app/bot.py] *)

Record TradeDecision := mkDecision {
  direction : string;
  size : Q;
  reason : string
}.

(** [candle.get(side) or candle.get("close", {}).get(side)] *)
Definition resolve (side : string) (candle : pyval) : result pyval :=
  flat <-? py_get candle side ;;
  if truthy flat then Ok flat
  else
    close <-? py_get_default candle "close" (PDict ∅) ;;
    py_get close side.

(** The body of the [for] loop, with [prices] as the accumulator. *)
Fixpoint extract_loop (candles : list pyval) (prices : list Q) : result (list Q) :=
  match candles with
  | [] => Ok prices
  | candle :: rest =>
      bid <-? resolve "bid" candle ;;
      ask <-? resolve "ask" candle ;;
      if is_not_none bid && is_not_none ask then
        s <-? py_add bid ask ;;
        mid <-? py_div2 s ;;
        extract_loop rest (prices ++ [mid])
      else extract_loop rest prices
  end.

Definition no_price_data : exn :=
  ValueError "No price data returned from Capital.com API.".

Definition _extract_mid_prices (price_payload : pyval) : result (list Q) :=
  seq <-? py_get_default price_payload "prices" (PList []) ;;
  candles <-? py_iter seq ;;
  prices <-? extract_loop candles [] ;;
  match prices with
  | [] => Err no_price_data
  | _ => Ok prices
  end.

(** [l[start:]] with Python's treatment of negative and oversized bounds. *)
Definition py_slice_from {A} (start : Z) (l : list A) : list A :=
  let n := Z.of_nat (length l) in
  let i := if (start <? 0)%Z then Z.max 0 (n + start) else Z.min start n in
  drop (Z.to_nat i) l.

Definition Qsum (l : list Q) : Q := foldr Qplus 0%Q l.

(** [statistics.mean] *)
Definition mean (data : list Q) : result Q :=
  match data with
  | [] => Err StatisticsError
  | _ => Ok (Qsum data / inject_Z (Z.of_nat (length data)))%Q
  end.

(** [a > b] and [a < b] on numbers *)
Definition Qgtb (a b : Q) : bool := negb (Qle_bool a b).
Definition Qltb (a b : Q) : bool := negb (Qle_bool b a).

Definition short_window (mids : list Q) : list Q := py_slice_from (-5) mids.
Definition long_window (mids : list Q) : list Q := py_slice_from (-20) mids.

(** Lines 29-37 of [decide_trade]: the signal computed from the midpoint
    series (the specification's [decide]). *)
Definition decide (mids : list Q) (trade_size : Q) : result TradeDecision :=
  short_avg <-? mean (short_window mids) ;;
  long_avg <-? mean (long_window mids) ;;
  if Qgtb short_avg long_avg then
    Ok (mkDecision "BUY" trade_size "short_avg > long_avg")
  else if Qltb short_avg long_avg then
    Ok (mkDecision "SELL" trade_size "short_avg < long_avg")
  else Ok (mkDecision "NONE" 0 "no crossover").

Definition decide_trade (price_payload : pyval) (trade_size : Q) : result TradeDecision :=
  mids <-? _extract_mid_prices price_payload ;;
  decide mids trade_size.

(** ** [app/capital_client.py] *)

Record CapitalSession := mkSession {
  cst : string;
  security_token : string
}.

(** *** The HTTP transport ([requests]) *)

Inductive http_method := GET | POST.

Record Request := mkRequest {
  req_method : http_method;
  req_url : string;
  req_headers : gmap string string;
  req_params : gmap string pyval;
  req_data : option pyval;          (* the document given to [json.dumps] *)
  req_timeout : Z
}.

Definition ascii_lower (c : ascii) : ascii :=
  let n := nat_of_ascii c in
  if (65 <=? n)%nat && (n <=? 90)%nat then ascii_of_nat (n + 32) else c.

Fixpoint lower (s : string) : string :=
  match s with
  | EmptyString => EmptyString
  | String c s' => String (ascii_lower c) (lower s')
  end.

(** [response.headers] is a case-insensitive dictionary: [ci_store] is
    keyed by the lower-cased field names. *)
Record Response := mkResponse {
  status_code : Z;
  ci_store : gmap string string;
  json_body : option pyval
}.

(** [response.headers.get(name)] *)
Definition headers_get (r : Response) (name : string) : option string :=
  ci_store r !! lower name.

(** [response.raise_for_status()] *)
Definition raise_for_status (r : Response) : result unit :=
  if (400 <=? status_code r)%Z && (status_code r <? 600)%Z
  then Err (HTTPError (status_code r))
  else Ok tt.

(** [response.json()] *)
Definition response_json (r : Response) : result pyval :=
  match json_body r with
  | Some v => Ok v
  | None => Err JSONDecodeError
  end.

(** [not s] for a header value that may be [None] *)
Definition falsy_str (s : option string) : bool :=
  match s with
  | None => true
  | Some t => String.eqb t EmptyString
  end.

Definition missing_tokens : exn :=
  RuntimeError "Missing session tokens from Capital.com response.".

(** [s.rstrip("/")] *)
Fixpoint rstrip_slash (s : string) : string :=
  match s with
  | EmptyString => EmptyString
  | String c s' =>
      match rstrip_slash s' with
      | EmptyString => if Ascii.eqb c "/"%char then EmptyString else String c EmptyString
      | r => String c r
      end
  end.

(** *** Effects: a world behind the transport, and the log of client calls *)

Inductive call :=
| FetchPrices (session : CapitalSession) (epic : string)
| PlaceOrder (session : CapitalSession) (epic : string) (direction : string) (size : Q).

Definition is_place_order (c : call) : bool :=
  match c with PlaceOrder _ _ _ _ => true | _ => false end.

Definition place_order_calls (log : list call) : nat :=
  length (filter (fun c => is_place_order c = true) log).

Section Effects.
Context {W : Type}.

(** A computation reads and updates the world and the call log; an
    exception leaves the effects performed before it in place. *)
Definition M (A : Type) : Type := W * list call -> result A * (W * list call).

Definition ret {A} (a : A) : M A := fun st => (Ok a, st).
Definition raise {A} (e : exn) : M A := fun st => (Err e, st).
Definition bind {A B} (m : M A) (k : A -> M B) : M B :=
  fun st =>
    match m st with
    | (Ok a, st') => k a st'
    | (Err e, st') => (Err e, st')
    end.
Definition lift {A} (r : result A) : M A := fun st => (r, st).
Definition record (c : call) : M unit :=
  fun st => (Ok tt, (st.1, (st.2 ++ [c])%list)).
Definition on_world {A} (f : W -> result A * W) : M A :=
  fun st => let (r, w) := f st.1 in (r, (w, st.2)).

(** What [execute_trade] needs of its [client] argument. *)
Record Client := mkClient {
  fetch_prices_impl : CapitalSession -> string -> W -> result pyval * W;
  place_order_impl : CapitalSession -> string -> string -> Q -> W -> result pyval * W
}.

(** [client.fetch_prices(session=session, epic=epic)] *)
Definition call_fetch_prices (client : Client) (session : CapitalSession)
    (epic : string) : M pyval :=
  bind (record (FetchPrices session epic)) (fun _ =>
  on_world (fetch_prices_impl client session epic)).

(** [client.place_order(session=..., epic=..., direction=..., size=...)] *)
Definition call_place_order (client : Client) (session : CapitalSession)
    (epic direction : string) (size : Q) : M pyval :=
  bind (record (PlaceOrder session epic direction size)) (fun _ =>
  on_world (place_order_impl client session epic direction size)).

(** [execute_trade] of [app/bot.py] *)
Definition execute_trade (client : Client) (session : CapitalSession)
    (epic : string) (trade_size : Q) (dry_run : bool) : M (gmap string pyval) :=
  bind (call_fetch_prices client session epic) (fun prices =>
  bind (lift (decide_trade prices trade_size)) (fun decision =>
  if String.eqb (direction decision) "NONE" then
    ret (<["status" := PStr "skipped"]> (<["reason" := PStr (reason decision)]> ∅))
  else if dry_run then
    ret (<["status" := PStr "dry_run"]>
         (<["direction" := PStr (direction decision)]>
         (<["size" := PNum (size decision)]>
         (<["reason" := PStr (reason decision)]> ∅))))
  else
    bind (call_place_order client session epic (direction decision) (size decision))
      (fun result =>
    ret (<["status" := PStr "placed"]>
         (<["direction" := PStr (direction decision)]>
         (<["result" := result]> ∅)))))).

(** *** [CapitalClient] over a transport *)

Variable send : Request -> W -> result Response * W.

Record CapitalClient := mkCapitalClient {
  base_url : string;
  api_key : string
}.

(** [CapitalClient.__init__] *)
Definition new_client (base_url api_key : string) : CapitalClient :=
  mkCapitalClient (rstrip_slash base_url) api_key.

(** [CapitalClient._headers] *)
Definition _headers (self : CapitalClient) (session : option CapitalSession)
    : gmap string string :=
  let headers : gmap string string :=
    <["X-CAP-API-KEY" := api_key self]>
    (<["Content-Type" := "application/json"]>
    (<["Accept" := "application/json"]> ∅)) in
  match session with
  | Some s => <["X-SECURITY-TOKEN" := security_token s]> (<["CST" := cst s]> headers)
  | None => headers
  end.

(** Lines 33-38 of [create_session]: what is done with the response. *)
Definition session_of_response (response : Response) : result CapitalSession :=
  _ <-? raise_for_status response ;;
  let cst := headers_get response "CST" in
  let security_token := headers_get response "X-SECURITY-TOKEN" in
  if falsy_str cst || falsy_str security_token then
    Err missing_tokens
  else Ok (mkSession (default EmptyString cst) (default EmptyString security_token)).

(** The login request of [create_session]. *)
Definition login_request (self : CapitalClient) (identifier password : string)
    : Request :=
  let url := base_url self ++ "/api/v1/session" in
  let payload := PDict (<["identifier" := PStr identifier]>
                       (<["password" := PStr password]> ∅)) in
  mkRequest POST url (_headers self None) ∅ (Some payload) 10.

Definition create_session (self : CapitalClient) (identifier password : string)
    : W -> result CapitalSession * W :=
  fun w =>
    match send (login_request self identifier password) w with
    | (Ok response, w') => (session_of_response response, w')
    | (Err e, w') => (Err e, w')
    end.

(** The keyword parameters that have defaults come first in [fetch_prices]
    and [place_order], so that [as_client] can fix them. *)
Definition fetch_prices (self : CapitalClient) (resolution : string)
    (session : CapitalSession) (epic : string) : W -> result pyval * W :=
  fun w =>
    let url := base_url self ++ "/api/v1/prices/" ++ epic in
    let params : gmap string pyval :=
      <["resolution" := PStr resolution]> (<["max" := PNum 20]> ∅) in
    match send (mkRequest GET url (_headers self (Some session)) params None 10) w with
    | (Ok response, w') =>
        (_ <-? raise_for_status response ;; response_json response, w')
    | (Err e, w') => (Err e, w')
    end.

Definition place_order (self : CapitalClient) (order_type currency : string)
    (session : CapitalSession) (epic direction : string) (size : Q)
    : W -> result pyval * W :=
  fun w =>
    let url := base_url self ++ "/api/v1/positions" in
    let payload := PDict (<["epic" := PStr epic]>
                         (<["direction" := PStr direction]>
                         (<["size" := PNum size]>
                         (<["orderType" := PStr order_type]>
                         (<["currencyCode" := PStr currency]>
                         (<["forceOpen" := PBool true]> ∅)))))) in
    match send (mkRequest POST url (_headers self (Some session)) ∅ (Some payload) 10) w with
    | (Ok response, w') =>
        (_ <-? raise_for_status response ;; response_json response, w')
    | (Err e, w') => (Err e, w')
    end.

(** The client object as [execute_trade] uses it: the keyword defaults
    [resolution="MINUTE_5"], [order_type="MARKET"], [currency="USD"]. *)
Definition as_client (self : CapitalClient) : Client :=
  mkClient (fetch_prices self "MINUTE_5") (place_order self "MARKET" "USD").

End Effects.
Arguments M : clear implicits.
Arguments Client : clear implicits.

(** *** The transport with a record of the requests it was given *)

Definition traced {W} (send : Request -> W -> result Response * W)
    : Request -> W * list Request -> result Response * (W * list Request) :=
  fun req st =>
    let (r, w) := send req st.1 in (r, (w, (st.2 ++ [req])%list)).

(** ** [app/config.py] *)

Module Config.
Record CapitalConfig := mkConfig {
  api_key : string;
  identifier : string;
  password : string;
  demo : bool;
  dry_run : bool;
  base_url : string
}.
End Config.

(** [c.isspace()] on ASCII text: space, tab to carriage return, and the
    four separators 28 to 31. *)
Definition is_space (c : ascii) : bool :=
  let n := nat_of_ascii c in
  (n =? 32)%nat || ((9 <=? n)%nat && (n <=? 13)%nat) || ((28 <=? n)%nat && (n <=? 31)%nat).

(** [s.lstrip()], [s.rstrip()] and [s.strip()] *)
Fixpoint lstrip (s : string) : string :=
  match s with
  | EmptyString => EmptyString
  | String c s' => if is_space c then lstrip s' else s
  end.

Fixpoint rstrip (s : string) : string :=
  match s with
  | EmptyString => EmptyString
  | String c s' =>
      match rstrip s' with
      | EmptyString => if is_space c then EmptyString else String c EmptyString
      | r => String c r
      end
  end.

Definition strip (s : string) : string := rstrip (lstrip s).

(** [os.getenv(name, default)] on an environment *)
Definition getenv (env : gmap string string) (name dflt : string) : string :=
  default dflt (env !! name).

Definition missing_credentials : exn :=
  ValueError "Missing credentials. Set CAPITAL_API_KEY, CAPITAL_IDENTIFIER, and CAPITAL_PASSWORD.".

Definition demo_url : string := "https://demo-api-capital.backend-capital.com".
Definition live_url : string := "https://api-capital.backend-capital.com".

(** [load_config] *)
Definition load_config (env : gmap string string) : result Config.CapitalConfig :=
  let api_key := strip (getenv env "CAPITAL_API_KEY" EmptyString) in
  let identifier := strip (getenv env "CAPITAL_IDENTIFIER" EmptyString) in
  let password := strip (getenv env "CAPITAL_PASSWORD" EmptyString) in
  let demo := String.eqb (lower (getenv env "CAPITAL_DEMO" "true")) "true" in
  let dry_run := String.eqb (lower (getenv env "CAPITAL_DRY_RUN" "true")) "true" in
  let base_url := if demo then demo_url else live_url in
  if String.eqb api_key EmptyString || String.eqb identifier EmptyString
     || String.eqb password EmptyString
  then Err missing_credentials
  else Ok (Config.mkConfig api_key identifier password demo dry_run base_url).

(** ** [app/main.py] *)

(** The namespace [parse_args] returns: the required [--epic] and the
    [--size] float (1.0 when the option is not given). *)
Module Args.
Record Namespace := mkNamespace {
  epic : string;
  size : Q
}.
End Args.

Section Main.
Context {W : Type}.
Variable send : Request -> W -> result Response * W.

(** [main], from the parsed arguments on; [Ok result] stands for printing
    the result document and returning 0. *)
Definition main (args : Args.Namespace) (env : gmap string string)
    : W -> result (gmap string pyval) * W :=
  fun w =>
    match load_config env with
    | Err e => (Err e, w)
    | Ok config =>
        let client := new_client (Config.base_url config) (Config.api_key config) in
        match create_session send client
                (Config.identifier config) (Config.password config) w with
        | (Err e, w1) => (Err e, w1)
        | (Ok session, w1) =>
            let out := execute_trade (as_client send client) session
                         (Args.epic args) (Args.size args) (Config.dry_run config)
                         (w1, []) in
            (out.1, out.2.1)
        end
    end.

End Main.

(** * Lines 15-37 of [app/bot.py] with Python's numbers

    The embedding above takes numbers as exact rationals.  This module
    embeds the extraction and the signal again with the numbers Python has:
    [int] is [Z], [float] is a binary64 value ([PrimFloat.float]), the
    true division of two integers is correctly rounded, and integer
    arithmetic that leaves the range of a double raises [OverflowError].
    Statements that depend on rounding or on the range of a double are made
    about this module. *)

Module Binary64.

Inductive pyval : Type :=
| PNone
| PBool (b : bool)
| PInt (z : Z)
| PFloat (f : float)
| PStr (s : string)
| PList (l : list pyval)
| PDict (d : gmap string pyval).

(** The double nearest to the integer [z] (ties to even); the infinity
    when [z] is beyond the range. *)
Definition Z_to_float (z : Z) : float :=
  SF2Prim (binary_normalize prec emax z 0 false).

(** The double nearest to the quotient [p / q] (ties to even). *)
Definition quotient_to_float (p : Z) (q : positive) : float :=
  match p with
  | Z0 => zero
  | Zpos m =>
      SF2Prim (SFdiv prec emax (S754_finite false m 0) (S754_finite false q 0))
  | Zneg m =>
      SF2Prim (SFdiv prec emax (S754_finite true m 0) (S754_finite false q 0))
  end.

(** [float(z)] as the arithmetic operators apply it to an [int] operand:
    "int too large to convert to float". *)
Definition int_to_float (z : Z) : result float :=
  let f := Z_to_float z in
  if is_infinity f then Err OverflowError else Ok f.

(** [a / b] on two [int]s with [b > 0]: "integer division result too large
    for a float". *)
Definition int_true_div (a : Z) (b : positive) : result float :=
  let f := quotient_to_float a b in
  if is_infinity f then Err OverflowError else Ok f.

(** [bool(v)] *)
Definition truthy (v : pyval) : bool :=
  match v with
  | PNone => false
  | PBool b => b
  | PInt z => negb (z =? 0)%Z
  | PFloat f => negb (f =? zero)%float
  | PStr s => negb (String.eqb s EmptyString)
  | PList l => match l with [] => false | _ => true end
  | PDict d => negb (bool_decide (d = ∅))
  end.

(** [v is not None] *)
Definition is_not_none (v : pyval) : bool :=
  match v with PNone => false | _ => true end.

(** The [int] view of a value: [bool] is a subclass of [int]. *)
Definition as_int (v : pyval) : option Z :=
  match v with
  | PInt z => Some z
  | PBool true => Some 1%Z
  | PBool false => Some 0%Z
  | _ => None
  end.

(** [a + b] *)
Definition py_add (a b : pyval) : result pyval :=
  match a, b with
  | PFloat x, PFloat y => Ok (PFloat (x + y))
  | PFloat x, _ =>
      match as_int b with
      | Some z => f <-? int_to_float z ;; Ok (PFloat (x + f))
      | None => Err TypeError
      end
  | _, PFloat y =>
      match as_int a with
      | Some z => f <-? int_to_float z ;; Ok (PFloat (f + y))
      | None => Err TypeError
      end
  | PStr s, PStr t => Ok (PStr (s ++ t))
  | PList l, PList m => Ok (PList (l ++ m))
  | _, _ =>
      match as_int a, as_int b with
      | Some x, Some y => Ok (PInt (x + y))
      | _, _ => Err TypeError
      end
  end.

(** [v / 2] *)
Definition py_div2 (v : pyval) : result float :=
  match v with
  | PFloat f => Ok (f / 2)%float
  | _ =>
      match as_int v with
      | Some z => int_true_div z 2
      | None => Err TypeError
      end
  end.

(** [v.get(key)] and [v.get(key, default)] *)
Definition py_get_default (v : pyval) (key : string) (dflt : pyval) : result pyval :=
  match v with
  | PDict d => Ok (default dflt (d !! key))
  | _ => Err AttributeError
  end.

Definition py_get (v : pyval) (key : string) : result pyval :=
  py_get_default v key PNone.

Fixpoint chars (s : string) : list pyval :=
  match s with
  | EmptyString => []
  | String c s' => PStr (String c EmptyString) :: chars s'
  end.

(** [for x in v] *)
Definition py_iter (v : pyval) : result (list pyval) :=
  match v with
  | PList l => Ok l
  | PStr s => Ok (chars s)
  | PDict d => Ok (PStr <$> (map_to_list d).*1)
  | _ => Err TypeError
  end.

Record TradeDecision := mkDecision {
  direction : string;
  size : pyval;
  reason : string
}.

(** [candle.get(side) or candle.get("close", {}).get(side)] *)
Definition resolve (side : string) (candle : pyval) : result pyval :=
  flat <-? py_get candle side ;;
  if truthy flat then Ok flat
  else
    close <-? py_get_default candle "close" (PDict ∅) ;;
    py_get close side.

(** The body of the [for] loop, with [prices] as the accumulator. *)
Fixpoint extract_loop (candles : list pyval) (prices : list float)
    : result (list float) :=
  match candles with
  | [] => Ok prices
  | candle :: rest =>
      bid <-? resolve "bid" candle ;;
      ask <-? resolve "ask" candle ;;
      if is_not_none bid && is_not_none ask then
        s <-? py_add bid ask ;;
        mid <-? py_div2 s ;;
        extract_loop rest (prices ++ [mid])
      else extract_loop rest prices
  end.

Definition _extract_mid_prices (price_payload : pyval) : result (list float) :=
  seq <-? py_get_default price_payload "prices" (PList []) ;;
  candles <-? py_iter seq ;;
  prices <-? extract_loop candles [] ;;
  match prices with
  | [] => Err no_price_data
  | _ => Ok prices
  end.

(** [x.as_integer_ratio()] as [statistics._exact_ratio] uses it: the exact
    value of a finite double, nothing for an infinity or a NaN. *)
Definition exact_ratio (f : float) : option Q :=
  match Prim2SF f with
  | S754_zero _ => Some 0%Q
  | S754_finite s m e =>
      let n := if s then Zneg m else Zpos m in
      Some match e with
           | Z0 => n # 1
           | Zpos k => (n * 2 ^ Zpos k) # 1
           | Zneg k => n # (2 ^ k)
           end%Q
  | _ => None
  end.

(** [statistics.mean] on a list of [float]s.  When all are finite the sum
    is exact (a [Fraction]), it is divided by the count and the quotient is
    converted to the nearest double; otherwise the infinities and NaNs alone
    are added up as floats, from 0, and the sum is divided by the count. *)
Definition mean (data : list float) : result float :=
  match data with
  | [] => Err StatisticsError
  | _ =>
      let n := Z.of_nat (length data) in
      match mapM exact_ratio data with
      | Some ratios =>
          let total := Qred (Qsum ratios / inject_Z n) in
          Ok (quotient_to_float (Qnum total) (Qden total))
      | None =>
          let total :=
            foldl PrimFloat.add zero (filter (fun x => is_finite x = false) data) in
          Ok (total / Z_to_float n)%float
      end
  end.

Definition short_window (mids : list float) : list float := py_slice_from (-5) mids.
Definition long_window (mids : list float) : list float := py_slice_from (-20) mids.

(** Lines 29-37 of [decide_trade] *)
Definition decide (mids : list float) (trade_size : float) : result TradeDecision :=
  short_avg <-? mean (short_window mids) ;;
  long_avg <-? mean (long_window mids) ;;
  if (long_avg <? short_avg)%float then
    Ok (mkDecision "BUY" (PFloat trade_size) "short_avg > long_avg")
  else if (short_avg <? long_avg)%float then
    Ok (mkDecision "SELL" (PFloat trade_size) "short_avg < long_avg")
  else Ok (mkDecision "NONE" (PInt 0) "no crossover").

Definition decide_trade (price_payload : pyval) (trade_size : float)
    : result TradeDecision :=
  mids <-? _extract_mid_prices price_payload ;;
  decide mids trade_size.

(** ** Notions for the statements about this module *)

Definition is_ok {A} (r : result A) : bool :=
  match r with Ok _ => true | Err _ => false end.

(** The last [n] elements of a list, all of them when there are fewer. *)
Definition last_n {A} (n : nat) (l : list A) : list A := drop (length l - n) l.

(** Line 21: [(bid + ask) / 2]. *)
Definition line21 (bid ask : pyval) : result float :=
  s <-? py_add bid ask ;; py_div2 s.

(** The candle has a bid and an ask that resolve to something other than
    [None]. *)
Definition has_both (candle : pyval) : bool :=
  match resolve "bid" candle, resolve "ask" candle with
  | Ok bid, Ok ask => is_not_none bid && is_not_none ask
  | _, _ => false
  end.

(** Line 21 does not raise on the candle (trivially so when the candle is
    skipped). *)
Definition in_range (candle : pyval) : bool :=
  match resolve "bid" candle, resolve "ask" candle with
  | Ok bid, Ok ask =>
      if is_not_none bid && is_not_none ask then is_ok (line21 bid ask) else true
  | _, _ => true
  end.

(** The midpoint line 21 appends for the candle, if it appends one. *)
Definition midpoint (candle : pyval) : option float :=
  match resolve "bid" candle, resolve "ask" candle with
  | Ok bid, Ok ask =>
      if is_not_none bid && is_not_none ask then
        match line21 bid ask with Ok mid => Some mid | Err _ => None end
      else None
  | _, _ => None
  end.

(** The shape of a price payload: a dict whose ["prices"], when present,
    is a list of candle dicts; a [bid] or [ask] field is absent, null or a
    number; ["close"], when present, is a dict of such fields.  With
    [ints = false] the numbers are floats only. *)
Definition wf_field (ints : bool) (o : option pyval) : bool :=
  match o with
  | None | Some PNone | Some (PFloat _) => true
  | Some (PInt _) => ints
  | _ => false
  end.

Definition wf_close (ints : bool) (o : option pyval) : bool :=
  match o with
  | None => true
  | Some (PDict cd) => wf_field ints (cd !! "bid") && wf_field ints (cd !! "ask")
  | _ => false
  end.

Definition wf_candle (ints : bool) (candle : pyval) : bool :=
  match candle with
  | PDict d =>
      wf_field ints (d !! "bid") && wf_field ints (d !! "ask")
      && wf_close ints (d !! "close")
  | _ => false
  end.

Definition wf_payload (ints : bool) (payload : pyval) : bool :=
  match payload with
  | PDict d =>
      match d !! "prices" with
      | None => true
      | Some (PList candles) => forallb (wf_candle ints) candles
      | _ => false
      end
  | _ => false
  end.

Definition candles_of (payload : pyval) : list pyval :=
  match payload with
  | PDict d => match d !! "prices" with Some (PList candles) => candles | _ => [] end
  | _ => []
  end.

(** The midpoints of the candles for which line 21 appends one, in payload
    order. *)
Definition usable_series (payload : pyval) : list float :=
  omap midpoint (candles_of payload).

Definition buy (trade_size : float) : TradeDecision :=
  mkDecision "BUY" (PFloat trade_size) "short_avg > long_avg".
Definition sell (trade_size : float) : TradeDecision :=
  mkDecision "SELL" (PFloat trade_size) "short_avg < long_avg".
Definition hold : TradeDecision := mkDecision "NONE" (PInt 0) "no crossover".

(** The decision lines 33-37 take from the two averages. *)
Definition rule (short_avg long_avg trade_size : float) : TradeDecision :=
  if (long_avg <? short_avg)%float then buy trade_size
  else if (short_avg <? long_avg)%float then sell trade_size
  else hold.

(** The exact mean of a series of finite doubles. *)
Definition exact_mean (data : list float) : option Q :=
  ratios ← mapM exact_ratio data;
  Some (Qsum ratios / inject_Z (Z.of_nat (length data)))%Q.

(** Example inputs. *)
Definition flat_candle (bid ask : pyval) : pyval :=
  PDict (<["bid" := bid]> (<["ask" := ask]> ∅)).

Definition prices_payload (candles : list pyval) : pyval :=
  PDict (<["prices" := PList candles]> ∅).

(** 903.93, 903.93, 903.94, 903.95, 903.91, 903.92 as doubles. *)
Definition tie_series : list float :=
  [0x1.c3f70a3d70a3dp+9; 0x1.c3f70a3d70a3dp+9; 0x1.c3f851eb851ecp+9;
   0x1.c3f999999999ap+9; 0x1.c3f47ae147ae1p+9; 0x1.c3f5c28f5c28fp+9]%float.

Definition rising_series : list float := [1; 2; 2; 2; 2; 2]%float.

(** A candle whose bid and ask are the integer 10^400. *)
Definition huge_candle : pyval :=
  flat_candle (PInt (10 ^ 400)) (PInt (10 ^ 400)).


Definition nested_candle (bid ask : pyval) : pyval :=
  PDict (<["close" := flat_candle bid ask]> ∅).

Definition partial_payload : pyval :=
  prices_payload
    [PDict (<["bid" := PInt 1]> ∅); nested_candle (PInt 3) (PFloat 5);
     PDict (<["ask" := PFloat 2]> ∅)].

End Binary64.

(** * Specification-side notions and example inputs *)

(** The last [n] points of a series, all of them when there are fewer. *)
Definition last_points (n : nat) (l : list Q) : list Q := drop (length l - n) l.

(** The arithmetic mean of a non-empty series. *)
Definition arith_mean (l : list Q) : Q :=
  (Qsum l / inject_Z (Z.of_nat (length l)))%Q.

Definition buy (trade_size : Q) : TradeDecision :=
  mkDecision "BUY" trade_size "short_avg > long_avg".
Definition sell (trade_size : Q) : TradeDecision :=
  mkDecision "SELL" trade_size "short_avg < long_avg".
Definition hold : TradeDecision := mkDecision "NONE" 0 "no crossover".

(** Example payloads: candles with flat [bid]/[ask] fields. *)
Definition flat_candle (b a : Q) : pyval :=
  PDict (<["bid" := PNum b]> (<["ask" := PNum a]> ∅)).

Definition prices_payload (candles : list pyval) : pyval :=
  PDict (<["prices" := PList candles]> ∅).

Definition rising_series : list Q := [1; 2; 2; 2; 2; 2]%Q.

Definition rising_payload : pyval :=
  prices_payload (flat_candle 1 1 :: replicate 5 (flat_candle 2 2)).

Definition scenario_A : pyval :=
  prices_payload (replicate 20 (flat_candle 1 1) ++ replicate 5 (flat_candle 10 10)).


(** The decision an invocation computes, when the fetch and the extraction
    both succeed. *)
Definition computed_decision {W} (client : Client W) (session : CapitalSession)
    (epic : string) (trade_size : Q) (w : W) : option TradeDecision :=
  match (fetch_prices_impl client session epic w).1 with
  | Ok prices =>
      match decide_trade prices trade_size with
      | Ok d => Some d
      | Err _ => None
      end
  | Err _ => None
  end.

(** A test double: the fetch returns a rising payload, the order call a
    fixed confirmation. *)
Definition double_client : Client unit :=
  mkClient (fun _ _ w => (Ok rising_payload, w))
           (fun _ _ _ _ w => (Ok (PStr "confirmed"), w)).

Definition some_session : CapitalSession := mkSession "cst-token" "security-token".

Definition empty_cst_response : Response :=
  mkResponse 200 (<["cst" := EmptyString]> (<["x-security-token" := "tok"]> ∅)) None.

Definition login_ok_response : Response :=
  mkResponse 200 (<["cst" := "abc"]> (<["x-security-token" := "xyz"]> ∅)) None.

(** The request of [fetch_prices] and the request of [place_order]. *)
Definition prices_request (self : CapitalClient) (resolution : string)
    (session : CapitalSession) (epic : string) : Request :=
  mkRequest GET (base_url self ++ "/api/v1/prices/" ++ epic)
    (_headers self (Some session))
    (<["resolution" := PStr resolution]> (<["max" := PNum 20]> ∅)) None 10.

Definition order_request (self : CapitalClient) (order_type currency : string)
    (session : CapitalSession) (epic direction : string) (size : Q) : Request :=
  mkRequest POST (base_url self ++ "/api/v1/positions")
    (_headers self (Some session)) ∅
    (Some (PDict (<["epic" := PStr epic]>
                 (<["direction" := PStr direction]>
                 (<["size" := PNum size]>
                 (<["orderType" := PStr order_type]>
                 (<["currencyCode" := PStr currency]>
                 (<["forceOpen" := PBool true]> ∅)))))))) 10.

(** A run of [n] slashes. *)
Fixpoint slashes (n : nat) : string :=
  match n with
  | O => EmptyString
  | S n' => String "/" (slashes n')
  end.

(** A text made of whitespace only. *)
Fixpoint all_space (s : string) : bool :=
  match s with
  | EmptyString => true
  | String c s' => is_space c && all_space s'
  end.

(** An environment variable that is unset, empty or whitespace only. *)
Definition unset_or_blank (env : gmap string string) (name : string) : bool :=
  match env !! name with
  | None => true
  | Some v => all_space v
  end.

(** The client object [main] builds from a configuration. *)
Definition client_of (config : Config.CapitalConfig) : CapitalClient :=
  new_client (Config.base_url config) (Config.api_key config).

(** Example responses and an example environment. *)
Definition server_error : Response := mkResponse 500 ∅ None.

Definition forbidden_with_tokens : Response :=
  mkResponse 403 (<["cst" := "abc"]> (<["x-security-token" := "xyz"]> ∅)) None.

Definition example_env : gmap string string :=
  <["CAPITAL_API_KEY" := " key "]>
  (<["CAPITAL_IDENTIFIER" := "user@example.org"]>
  (<["CAPITAL_PASSWORD" := "secret"]>
  (<["CAPITAL_DEMO" := "False"]> ∅))).

Definition example_config : Config.CapitalConfig :=
  Config.mkConfig "key" "user@example.org" "secret" false true live_url.

(** A venue that accepts the login and serves the rising payload. *)
Definition example_send (req : Request) (w : unit) : result Response * unit :=
  match req_method req with
  | POST => (Ok login_ok_response, w)
  | GET => (Ok (mkResponse 200 ∅ (Some rising_payload)), w)
  end.

Definition example_args : Args.Namespace := Args.mkNamespace "GOLD" 1.

(** * Properties *)

(** ** Numbers *)

Lemma Qgtb_true (a b : Q) : Qgtb a b = true <-> (b < a)%Q.
Proof.
  unfold Qgtb. rewrite negb_true_iff, <- not_true_iff_false, Qle_bool_iff.
  split; [apply Qnot_le_lt | apply Qlt_not_le].
Qed.

Lemma Qltb_true (a b : Q) : Qltb a b = true <-> (a < b)%Q.
Proof. apply (Qgtb_true b a). Qed.

Lemma Qgtb_false (a b : Q) : Qgtb a b = false <-> (a <= b)%Q.
Proof.
  unfold Qgtb. rewrite negb_false_iff. apply Qle_bool_iff.
Qed.

Lemma Qltb_false (a b : Q) : Qltb a b = false <-> (b <= a)%Q.
Proof. apply (Qgtb_false b a). Qed.

(** ** Slices and windows *)

Lemma py_slice_from_neg {A} (n : nat) (l : list A) :
  (0 < n)%nat -> py_slice_from (- Z.of_nat n) l = drop (length l - n) l.
Proof.
  intros Hn. unfold py_slice_from.
  replace (- Z.of_nat n <? 0)%Z with true by (symmetry; apply Z.ltb_lt; lia).
  f_equal. lia.
Qed.

Lemma short_window_last (mids : list Q) : short_window mids = last_points 5 mids.
Proof. apply (py_slice_from_neg 5). lia. Qed.

Lemma long_window_last (mids : list Q) : long_window mids = last_points 20 mids.
Proof. apply (py_slice_from_neg 20). lia. Qed.

Lemma last_points_suffix (n : nat) (l : list Q) :
  exists older, l = (older ++ last_points n l)%list /\
                length (last_points n l) = Nat.min n (length l).
Proof.
  exists (take (length l - n) l). split.
  - unfold last_points. now rewrite take_drop.
  - unfold last_points. rewrite length_drop. lia.
Qed.

Lemma last_points_all (n : nat) (l : list Q) :
  (length l <= n)%nat -> last_points n l = l.
Proof.
  intros H. unfold last_points. now replace (length l - n)%nat with 0%nat by lia.
Qed.

Lemma last_points_nonempty (n : nat) (l : list Q) :
  (0 < n)%nat -> l <> [] -> last_points n l <> [].
Proof.
  intros Hn Hl Habs.
  destruct (last_points_suffix n l) as (older & _ & Hlen).
  rewrite Habs in Hlen. destruct l; [congruence | simpl in Hlen; lia].
Qed.

Lemma mean_nonempty (l : list Q) : l <> [] -> mean l = Ok (arith_mean l).
Proof. destruct l; [congruence | reflexivity]. Qed.

(** ** The decision rule *)

Lemma decide_unfold (mids : list Q) (trade_size : Q) :
  mids <> [] ->
  decide mids trade_size =
    Ok (let s := arith_mean (last_points 5 mids) in
        let l := arith_mean (last_points 20 mids) in
        if Qgtb s l then buy trade_size
        else if Qltb s l then sell trade_size else hold).
Proof.
  intros Hne. unfold decide.
  rewrite short_window_last, long_window_last.
  rewrite !mean_nonempty by (apply last_points_nonempty; [lia | assumption]).
  simpl. destruct (Qgtb _ _); [reflexivity |]. now destruct (Qltb _ _).
Qed.

(** The rule seen from [decide_trade]: the series is the one extracted from
    the payload. *)
Lemma decide_trade_extracted (payload : pyval) (mids : list Q) (trade_size : Q) :
  _extract_mid_prices payload = Ok mids ->
  decide_trade payload trade_size = decide mids trade_size.
Proof. intros H. unfold decide_trade. now rewrite H. Qed.

(** C9: a series of one to five points gives NONE with size 0 and reason
    "no crossover": both windows are the whole series. *)
Theorem decide_at_most_five (mids : list Q) (trade_size : Q) :
  (1 <= length mids <= 5)%nat ->
  short_window mids = long_window mids /\
  decide mids trade_size = Ok (mkDecision "NONE" 0 "no crossover").
Proof.
  intros [Hlo Hhi].
  assert (Hne : mids <> []) by (destruct mids; [simpl in Hlo; lia | discriminate]).
  rewrite short_window_last, long_window_last.
  rewrite !last_points_all by lia. split; [reflexivity |].
  rewrite (decide_unfold _ _ Hne). rewrite !last_points_all by lia. cbv zeta.
  assert (Hg : Qgtb (arith_mean mids) (arith_mean mids) = false)
    by (apply Qgtb_false, Qle_refl).
  assert (Hl : Qltb (arith_mean mids) (arith_mean mids) = false)
    by (apply Qltb_false, Qle_refl).
  now rewrite Hg, Hl.
Qed.

Lemma decide_at_most_five_witness :
  decide [3; 7; 2]%Q 1 = Ok (mkDecision "NONE" 0 "no crossover").
Proof.
  apply (decide_at_most_five [3; 7; 2]%Q 1). simpl. lia.
Defined.




(** C7: on the payload of twenty candles at 1 followed by five at 10 the
    series has 25 midpoints, the short average is 10, the long average over
    the last twenty midpoints (fifteen 1s, five 10s) is 13/4, and the
    decision is BUY. *)
Theorem scenario_A_buy (trade_size : Q) :
  exists mids short_avg long_avg,
    _extract_mid_prices scenario_A = Ok mids /\
    length mids = 25%nat /\
    Forall2 Qeq (long_window mids) (replicate 15 1%Q ++ replicate 5 10%Q) /\
    mean (short_window mids) = Ok short_avg /\
    mean (long_window mids) = Ok long_avg /\
    (short_avg == 10)%Q /\ (long_avg == 13 # 4)%Q /\ (long_avg < short_avg)%Q /\
    decide_trade scenario_A trade_size =
      Ok (mkDecision "BUY" trade_size "short_avg > long_avg").
Proof.
  assert (He : _extract_mid_prices scenario_A
               = Ok (replicate 20 (2 # 2)%Q ++ replicate 5 (20 # 2)%Q)%list)
    by (vm_compute; reflexivity).
  eexists _, _, _. split; [exact He |].
  split; [reflexivity |].
  split; [repeat constructor |].
  split; [reflexivity |]. split; [reflexivity |].
  split; [reflexivity |]. split; [reflexivity |]. split; [reflexivity |].
  rewrite (decide_trade_extracted _ _ _ He). reflexivity.
Qed.

(** ** The falsy fallback *)






(** ** The orchestrator *)

Lemma place_order_calls_app (l1 l2 : list call) :
  place_order_calls (l1 ++ l2) = (place_order_calls l1 + place_order_calls l2)%nat.
Proof. unfold place_order_calls. now rewrite filter_app, length_app. Qed.

(** C1: in every invocation of [execute_trade], [place_order] is invoked
    (once) if and only if a decision was computed, its direction is not
    NONE and [dry_run] is false.  With direction NONE the outcome is
    "skipped"; with [dry_run] and another direction it is "dry_run" and
    [place_order] is not invoked; otherwise [place_order] is invoked with the
    decision's direction and size and, when it returns, the outcome is
    "placed" with its result. *)
Theorem execute_trade_gating {W} (client : Client W) (session : CapitalSession)
    (epic : string) (trade_size : Q) (dry_run : bool) (w : W) (log : list call) :
  let out := execute_trade client session epic trade_size dry_run (w, log) in
  let w1 := (fetch_prices_impl client session epic w).2 in
  let invoked := place_order_calls out.2.2 = S (place_order_calls log) in
  let not_invoked := place_order_calls out.2.2 = place_order_calls log in
  (invoked \/ not_invoked) /\
  (invoked <->
     exists d, computed_decision client session epic trade_size w = Some d /\
               direction d <> "NONE" /\ dry_run = false) /\
  (forall d, computed_decision client session epic trade_size w = Some d ->
     (direction d = "NONE" ->
        not_invoked /\
        out.1 = Ok (<["status" := PStr "skipped"]>
                   (<["reason" := PStr (reason d)]> ∅))) /\
     (direction d <> "NONE" -> dry_run = true ->
        not_invoked /\
        out.1 = Ok (<["status" := PStr "dry_run"]>
                   (<["direction" := PStr (direction d)]>
                   (<["size" := PNum (size d)]>
                   (<["reason" := PStr (reason d)]> ∅))))) /\
     (direction d <> "NONE" -> dry_run = false ->
        out.2.2 = (log ++ [FetchPrices session epic;
                           PlaceOrder session epic (direction d) (size d)])%list /\
        forall r w2,
          place_order_impl client session epic (direction d) (size d) w1 = (Ok r, w2) ->
          out.1 = Ok (<["status" := PStr "placed"]>
                     (<["direction" := PStr (direction d)]>
                     (<["result" := r]> ∅))))).
Proof.
  unfold computed_decision, execute_trade, call_fetch_prices, call_place_order,
    bind, record, on_world, lift, ret. simpl.
  destruct (fetch_prices_impl client session epic w) as [[prices|e] w1] eqn:Hf; simpl.
  2:{ rewrite place_order_calls_app. simpl. rewrite Nat.add_0_r.
      split; [now right |]. split; [| discriminate].
      split; [lia | intros (d & Hd & _); discriminate]. }
  destruct (decide_trade prices trade_size) as [d|e] eqn:Hd; simpl.
  2:{ rewrite place_order_calls_app. simpl. rewrite Nat.add_0_r.
      split; [now right |]. split; [| discriminate].
      split; [lia | intros (d & Hd' & _); discriminate]. }
  destruct (String.eqb (direction d) "NONE") eqn:Hdir.
  - apply String.eqb_eq in Hdir. simpl.
    rewrite place_order_calls_app. simpl. rewrite Nat.add_0_r.
    split; [now right |]. split.
    + split; [lia | intros (d' & [= <-] & Hne & _); contradiction].
    + intros d' [= <-]. repeat split; try reflexivity; try contradiction.
  - apply String.eqb_neq in Hdir. destruct dry_run; simpl.
    + rewrite place_order_calls_app. simpl. rewrite Nat.add_0_r.
      split; [now right |]. split.
      * split; [lia | intros (d' & _ & _ & Habs); discriminate].
      * intros d' [= <-]. repeat split; try reflexivity; try contradiction;
          discriminate.
    + destruct (place_order_impl client session epic (direction d) (size d) w1)
        as [[r|e] w2] eqn:Hp; simpl;
        rewrite <- !app_assoc; simpl; rewrite place_order_calls_app; simpl;
        (split; [left; unfold place_order_calls; simpl; lia |]);
        (split; [split; [intros _; exists d; auto | intros _; unfold place_order_calls; simpl; lia] |]);
        intros d' [= <-]; repeat split; try contradiction; try discriminate;
        intros r' w2' Heq; rewrite Hp in Heq; inversion Heq; subst; reflexivity.
Qed.

Lemma execute_trade_gating_witness :
  let out := execute_trade double_client some_session "GOLD" 1 false (tt, []) in
  place_order_calls out.2.2 = 1%nat /\
  out.1 = Ok (<["status" := PStr "placed"]>
             (<["direction" := PStr "BUY"]>
             (<["result" := PStr "confirmed"]> ∅))).
Proof.
  destruct (execute_trade_gating double_client some_session "GOLD" 1 false tt [])
    as (_ & Hiff & Hout).
  split.
  - apply Hiff. exists (buy 1).
    split; [vm_compute; reflexivity | split; [discriminate | reflexivity]].
  - destruct (Hout (buy 1)) as (_ & _ & Hplaced); [vm_compute; reflexivity |].
    destruct Hplaced as [_ Hres]; [discriminate | reflexivity |].
    apply (Hres (PStr "confirmed") tt). reflexivity.
Defined.

(** Scenario D: a dry run with a BUY decision reports "dry_run" and leaves
    the order call untouched. *)
Example scenario_D :
  let out := execute_trade double_client some_session "GOLD" 1 true (tt, []) in
  out.2.2 = [FetchPrices some_session "GOLD"] /\
  place_order_calls out.2.2 = 0%nat /\
  exists m, out.1 = Ok m /\ m !! "status" = Some (PStr "dry_run").
Proof.
  split; [reflexivity |]. split; [reflexivity |].
  eexists. split; [vm_compute; reflexivity | reflexivity].
Qed.

(** ** Authentication *)

(** C5, as stated, fails: a successful response that carries both headers,
    the CST one with an empty value, is rejected. *)
Lemma empty_token_rejected :
  raise_for_status empty_cst_response = Ok tt /\
  headers_get empty_cst_response "CST" = Some EmptyString /\
  headers_get empty_cst_response "X-SECURITY-TOKEN" = Some "tok" /\
  create_session (fun _ (w : unit) => (Ok empty_cst_response, w))
    (new_client "https://demo-api-capital.backend-capital.com/" "key")
    "user" "secret" tt
  = (Err missing_tokens, tt).
Proof. repeat split; reflexivity. Qed.

Lemma falsy_str_spec (o : option string) :
  falsy_str o = true <-> o = None \/ o = Some EmptyString.
Proof.
  destruct o as [s|]; simpl.
  - rewrite String.eqb_eq. split; [intros ->; now right | intros [|[= ->]]; congruence].
  - split; auto.
Qed.

(** C5, amended: on a response whose status passes [raise_for_status],
    [create_session] raises the missing-tokens error, and returns no session,
    whenever the CST or the X-SECURITY-TOKEN header is absent or empty; when
    both are present and non-empty it returns the session made of exactly
    those two values. *)
Theorem create_session_tokens {W} (send : Request -> W -> result Response * W)
    (self : CapitalClient) (identifier password : string)
    (w w' : W) (response : Response) :
  send (login_request self identifier password) w = (Ok response, w') ->
  raise_for_status response = Ok tt ->
  let missing name :=
    headers_get response name = None \/ headers_get response name = Some EmptyString in
  (missing "CST" \/ missing "X-SECURITY-TOKEN" ->
     create_session send self identifier password w = (Err missing_tokens, w')) /\
  (forall c t,
     headers_get response "CST" = Some c ->
     headers_get response "X-SECURITY-TOKEN" = Some t ->
     c <> EmptyString -> t <> EmptyString ->
     create_session send self identifier password w = (Ok (mkSession c t), w')).
Proof.
  intros Hsend Hstatus missing. unfold create_session, session_of_response.
  rewrite Hsend, Hstatus. simpl. split.
  - intros Hm.
    assert (Hf : falsy_str (headers_get response "CST")
                 || falsy_str (headers_get response "X-SECURITY-TOKEN") = true).
    { apply orb_true_iff. destruct Hm as [Hm | Hm]; [left | right];
        now apply falsy_str_spec. }
    now rewrite Hf.
  - intros c t Hc Ht Hcne Htne. rewrite Hc, Ht. simpl.
    apply String.eqb_neq in Hcne, Htne. now rewrite Hcne, Htne.
Qed.

Lemma create_session_tokens_witness :
  create_session (fun _ (w : unit) => (Ok login_ok_response, w))
    (new_client "https://demo-api-capital.backend-capital.com" "key")
    "user" "secret" tt
  = (Ok (mkSession "abc" "xyz"), tt).
Proof.
  apply (create_session_tokens (fun _ (w : unit) => (Ok login_ok_response, w))
           (new_client "https://demo-api-capital.backend-capital.com" "key")
           "user" "secret" tt tt login_ok_response);
    try reflexivity; discriminate.
Defined.

(** * Further properties of [app/bot.py] *)

(** ** What a successful extraction returns *)

Lemma extract_ok_nonempty (payload : pyval) (mids : list Q) :
  _extract_mid_prices payload = Ok mids -> mids <> [].
Proof.
  unfold _extract_mid_prices.
  destruct (py_get_default payload "prices" (PList [])) as [v|]; simpl;
    [| discriminate].
  destruct (py_iter v) as [candles|]; simpl; [| discriminate].
  destruct (extract_loop candles []) as [[|m l]|]; simpl; try discriminate.
  intros [= <-]. discriminate.
Qed.

(** X2: [decide_trade] raises exactly when the extraction raises, with the
    same exception; in particular [statistics.mean] never fails in it. *)
Theorem decide_trade_error_iff (payload : pyval) (trade_size : Q) :
  (forall e, decide_trade payload trade_size = Err e <->
             _extract_mid_prices payload = Err e) /\
  (forall mids, _extract_mid_prices payload = Ok mids ->
     exists d, decide_trade payload trade_size = Ok d).
Proof.
  unfold decide_trade.
  destruct (_extract_mid_prices payload) as [mids|e0] eqn:He; simpl.
  - pose proof (extract_ok_nonempty _ _ He) as Hne.
    rewrite (decide_unfold _ _ Hne). split.
    + intros e. split; discriminate.
    + intros mids' _. eauto.
  - split; [intros e; split; intros [= ->]; reflexivity | discriminate].
Qed.

(** ** The signal on longer series *)

Lemma last_points_app (k : nat) (older recent : list Q) :
  (k <= length recent)%nat ->
  last_points k (older ++ recent) = last_points k recent.
Proof.
  intros Hk. unfold last_points. rewrite length_app.
  rewrite drop_app_ge by lia. f_equal. lia.
Qed.

(** X4: only the last 20 points of the series matter: points older than
    these do not change the decision. *)
Theorem decide_last_twenty (older recent : list Q) (trade_size : Q) :
  (20 <= length recent)%nat ->
  decide (older ++ recent) trade_size = decide recent trade_size.
Proof.
  intros Hlen.
  assert (Hr : recent <> []) by (destruct recent; [simpl in Hlen; lia | discriminate]).
  assert (Ha : (older ++ recent)%list <> []).
  { intros [_ H]%app_eq_nil. contradiction. }
  rewrite (decide_unfold _ _ Hr), (decide_unfold _ _ Ha).
  now rewrite !last_points_app by lia.
Qed.

Lemma decide_last_twenty_witness :
  decide ([100; 200]%Q ++ replicate 20 1%Q)%list 1 = decide (replicate 20 1%Q) 1.
Proof.
  apply (decide_last_twenty [100; 200]%Q (replicate 20 1%Q) 1). simpl. lia.
Defined.

Lemma inject_Z_S (n : nat) :
  (inject_Z (Z.of_nat (S n)) == 1 + inject_Z (Z.of_nat n))%Q.
Proof.
  rewrite Nat2Z.inj_succ. unfold Z.succ. rewrite inject_Z_plus. simpl. ring.
Qed.

Lemma inject_Z_pos (n : nat) : (0 < n)%nat -> (0 < inject_Z (Z.of_nat n))%Q.
Proof.
  intros H. change 0%Q with (inject_Z 0). rewrite <- Zlt_Qlt. lia.
Qed.

Lemma Qsum_replicate (n : nat) (c : Q) :
  (Qsum (replicate n c) == inject_Z (Z.of_nat n) * c)%Q.
Proof.
  induction n as [|n IH]; [simpl; ring |].
  change (Qsum (replicate (S n) c)) with (c + Qsum (replicate n c))%Q.
  rewrite IH, inject_Z_S. ring.
Qed.

Lemma arith_mean_replicate (n : nat) (c : Q) :
  (0 < n)%nat -> (arith_mean (replicate n c) == c)%Q.
Proof.
  intros Hn. unfold arith_mean. rewrite length_replicate, Qsum_replicate.
  field. intros H. pose proof (inject_Z_pos n Hn) as Hp. rewrite H in Hp.
  now apply Qlt_irrefl in Hp.
Qed.

Lemma last_points_replicate (k n : nat) (c : Q) :
  last_points k (replicate n c) = replicate (Nat.min k n) c.
Proof.
  unfold last_points. rewrite length_replicate, drop_replicate. f_equal. lia.
Qed.

(** X5: a constant series of any positive length gives NONE with size 0. *)
Theorem decide_constant (n : nat) (c trade_size : Q) :
  (0 < n)%nat ->
  decide (replicate n c) trade_size = Ok (mkDecision "NONE" 0 "no crossover").
Proof.
  intros Hn.
  assert (Hne : replicate n c <> []) by (destruct n; [lia | discriminate]).
  rewrite (decide_unfold _ _ Hne). cbv zeta. rewrite !last_points_replicate.
  assert (Hs : (arith_mean (replicate (Nat.min 5 n) c) == c)%Q)
    by (apply arith_mean_replicate; lia).
  assert (Hl : (arith_mean (replicate (Nat.min 20 n) c) == c)%Q)
    by (apply arith_mean_replicate; lia).
  assert (Hg : Qgtb (arith_mean (replicate (Nat.min 5 n) c))
                    (arith_mean (replicate (Nat.min 20 n) c)) = false)
    by (apply Qgtb_false; rewrite Hs, Hl; apply Qle_refl).
  assert (Hb : Qltb (arith_mean (replicate (Nat.min 5 n) c))
                    (arith_mean (replicate (Nat.min 20 n) c)) = false)
    by (apply Qltb_false; rewrite Hs, Hl; apply Qle_refl).
  now rewrite Hg, Hb.
Qed.

Lemma decide_constant_witness :
  decide (replicate 30 (7 # 2)) 1 = Ok (mkDecision "NONE" 0 "no crossover").
Proof. apply (decide_constant 30 (7 # 2) 1). lia. Defined.

(** * Further properties of the orchestrator *)

Lemma decide_cases (mids : list Q) (trade_size : Q) (d : TradeDecision) :
  decide mids trade_size = Ok d ->
  d = buy trade_size \/ d = sell trade_size \/ d = hold.
Proof.
  unfold decide. destruct (mean (short_window mids)); simpl; [| discriminate].
  destruct (mean (long_window mids)); simpl; [| discriminate].
  destruct (Qgtb _ _); [| destruct (Qltb _ _)]; intros [= <-]; auto.
Qed.

Lemma decide_trade_cases (payload : pyval) (trade_size : Q) (d : TradeDecision) :
  decide_trade payload trade_size = Ok d ->
  d = buy trade_size \/ d = sell trade_size \/ d = hold.
Proof.
  unfold decide_trade. destruct (_extract_mid_prices payload); simpl;
    [apply decide_cases | discriminate].
Qed.

(** X9: whatever the client does, an invocation calls [fetch_prices] once,
    first, and after it at most one [place_order], always for the same
    session and epic, with direction BUY or SELL and with exactly the trade
    size it was given. *)
Theorem execute_trade_calls {W} (client : Client W) (session : CapitalSession)
    (epic : string) (trade_size : Q) (dry_run : bool) (w : W) (log : list call) :
  let out := execute_trade client session epic trade_size dry_run (w, log) in
  out.2.2 = (log ++ [FetchPrices session epic])%list \/
  exists dir, (dir = "BUY" \/ dir = "SELL") /\ dry_run = false /\
    out.2.2 = (log ++ [FetchPrices session epic;
                       PlaceOrder session epic dir trade_size])%list.
Proof.
  unfold execute_trade, call_fetch_prices, call_place_order,
    bind, record, on_world, lift, ret. simpl.
  destruct (fetch_prices_impl client session epic w) as [[prices|e] w1]; simpl;
    [| now left].
  destruct (decide_trade prices trade_size) as [d|e] eqn:Hd; simpl; [| now left].
  apply decide_trade_cases in Hd as [-> | [-> | ->]]; simpl; try (now left);
    destruct dry_run; simpl; try (now left).
  - right. exists "BUY". split; [now left |]. split; [reflexivity |].
    destruct (place_order_impl _ _ _ _ _ _) as [[r|e] w2]; simpl;
      now rewrite <- app_assoc.
  - right. exists "SELL". split; [now right |]. split; [reflexivity |].
    destruct (place_order_impl _ _ _ _ _ _) as [[r|e] w2]; simpl;
      now rewrite <- app_assoc.
Qed.

(** X10: [execute_trade] raises exactly the exception of the stage that
    failed: the fetch, the decision on the fetched payload, or the order call
    of a live run with a BUY or SELL decision; no exception is swallowed and
    none is added. *)
Theorem execute_trade_raises {W} (client : Client W) (session : CapitalSession)
    (epic : string) (trade_size : Q) (dry_run : bool) (w : W) (log : list call)
    (e : exn) :
  let out := execute_trade client session epic trade_size dry_run (w, log) in
  let fetched := fetch_prices_impl client session epic w in
  out.1 = Err e <->
    fetched.1 = Err e \/
    (exists prices, fetched.1 = Ok prices /\
       decide_trade prices trade_size = Err e) \/
    (exists prices d, fetched.1 = Ok prices /\
       decide_trade prices trade_size = Ok d /\
       direction d <> "NONE" /\ dry_run = false /\
       (place_order_impl client session epic (direction d) (size d) fetched.2).1
         = Err e).
Proof.
  unfold execute_trade, call_fetch_prices, call_place_order,
    bind, record, on_world, lift, ret. simpl.
  destruct (fetch_prices_impl client session epic w) as [[prices|e0] w1]; simpl.
  2:{ split; [intros [= ->]; now left |].
      intros [[= ->] | [(p & [=] & _) | (p & d & [=] & _)]]. reflexivity. }
  destruct (decide_trade prices trade_size) as [d|e0] eqn:Hd; simpl.
  2:{ split.
      - intros [= ->]. right; left. eauto.
      - intros [[=] | [(p & [= <-] & Hp) | (p & d & [= <-] & Hp & _)]];
          congruence. }
  destruct (String.eqb (direction d) "NONE") eqn:Hdir; simpl.
  { apply String.eqb_eq in Hdir. split; [discriminate |].
    intros [[=] | [(p & [= <-] & Hp) | (p & d' & [= <-] & Hp & Hne & _)]];
      congruence. }
  apply String.eqb_neq in Hdir. destruct dry_run; simpl.
  { split; [discriminate |].
    intros [[=] | [(p & [= <-] & Hp) | (p & d' & [= <-] & _ & _ & Habs & _)]];
      congruence. }
  destruct (place_order_impl client session epic (direction d) (size d) w1)
    as [[r|e1] w2] eqn:Hp; simpl.
  - split; [discriminate |].
    intros [[=] | [(p & [= <-] & Hp') | (p & d' & [= <-] & Hd' & _ & _ & He)]];
      [congruence |]. rewrite Hd in Hd'. injection Hd' as <-.
    rewrite Hp in He. discriminate.
  - split.
    + intros [= ->]. right; right. exists prices, d.
      rewrite Hp. repeat split; auto.
    + intros [[=] | [(p & [= <-] & Hp') | (p & d' & [= <-] & Hd' & _ & _ & He)]];
        [congruence |]. rewrite Hd in Hd'. injection Hd' as <-.
      rewrite Hp in He. simpl in He. congruence.
Qed.

(** * Further properties of [app/capital_client.py] *)

Lemma fetch_prices_request {W} (send : Request -> W -> result Response * W)
    (self : CapitalClient) (resolution : string) (session : CapitalSession)
    (epic : string) (w : W) :
  fetch_prices send self resolution session epic w =
    match send (prices_request self resolution session epic) w with
    | (Ok response, w') =>
        (_ <-? raise_for_status response ;; response_json response, w')
    | (Err e, w') => (Err e, w')
    end.
Proof. reflexivity. Qed.

Lemma place_order_request {W} (send : Request -> W -> result Response * W)
    (self : CapitalClient) (order_type currency : string)
    (session : CapitalSession) (epic direction : string) (size : Q) (w : W) :
  place_order send self order_type currency session epic direction size w =
    match send (order_request self order_type currency session epic direction size) w with
    | (Ok response, w') =>
        (_ <-? raise_for_status response ;; response_json response, w')
    | (Err e, w') => (Err e, w')
    end.
Proof. reflexivity. Qed.

Lemma raise_for_status_error (r : Response) :
  (400 <= status_code r < 600)%Z ->
  raise_for_status r = Err (HTTPError (status_code r)).
Proof.
  intros [Hlo Hhi]. unfold raise_for_status.
  apply Z.leb_le in Hlo. apply Z.ltb_lt in Hhi. now rewrite Hlo, Hhi.
Qed.

(** X11: when the venue answers the prices request with a status from 400
    to 599, [execute_trade] on the real client raises the HTTP error of that
    status after the single fetch call: no decision, no order, dry run or
    not. *)
Theorem fetch_http_error_aborts {W} (send : Request -> W -> result Response * W)
    (self : CapitalClient) (session : CapitalSession) (epic : string)
    (trade_size : Q) (dry_run : bool) (w w1 : W) (log : list call)
    (response : Response) :
  send (prices_request self "MINUTE_5" session epic) w = (Ok response, w1) ->
  (400 <= status_code response < 600)%Z ->
  execute_trade (as_client send self) session epic trade_size dry_run (w, log) =
    (Err (HTTPError (status_code response)),
     (w1, (log ++ [FetchPrices session epic])%list)).
Proof.
  intros Hsend Hstatus.
  unfold execute_trade, call_fetch_prices, bind, record, on_world, as_client.
  cbn [fetch_prices_impl fst snd]. rewrite fetch_prices_request, Hsend.
  now rewrite (raise_for_status_error _ Hstatus).
Qed.

Lemma fetch_http_error_aborts_witness :
  execute_trade (as_client (fun _ (w : unit) => (Ok server_error, w))
                   (new_client demo_url "key"))
    some_session "GOLD" 1 false (tt, []) =
  (Err (HTTPError 500), (tt, [FetchPrices some_session "GOLD"])).
Proof.
  apply (fetch_http_error_aborts (fun _ (w : unit) => (Ok server_error, w))
           (new_client demo_url "key") some_session "GOLD" 1 false tt tt []
           server_error).
  - reflexivity.
  - simpl. lia.
Defined.

(** X12: [create_session] checks the status before it looks at the
    headers: a response with a status from 400 to 599 raises the HTTP error
    of that status even when both token headers are present, and a failure of
    the transport itself is passed on unchanged. *)
Theorem create_session_failures {W} (send : Request -> W -> result Response * W)
    (self : CapitalClient) (identifier password : string) (w w' : W) :
  (forall response,
     send (login_request self identifier password) w = (Ok response, w') ->
     (400 <= status_code response < 600)%Z ->
     create_session send self identifier password w =
       (Err (HTTPError (status_code response)), w')) /\
  (forall e,
     send (login_request self identifier password) w = (Err e, w') ->
     create_session send self identifier password w = (Err e, w')).
Proof.
  split.
  - intros response Hsend Hstatus. unfold create_session, session_of_response.
    now rewrite Hsend, (raise_for_status_error _ Hstatus).
  - intros e Hsend. unfold create_session. now rewrite Hsend.
Qed.

Lemma create_session_failures_witness :
  create_session (fun _ (w : unit) => (Ok forbidden_with_tokens, w))
    (new_client demo_url "key") "user" "secret" tt = (Err (HTTPError 403), tt).
Proof.
  destruct (create_session_failures
              (fun _ (w : unit) => (Ok forbidden_with_tokens, w))
              (new_client demo_url "key") "user" "secret" tt tt) as [Hstatus _].
  apply (Hstatus forbidden_with_tokens); [reflexivity | simpl; lia].
Defined.

(** ** The base URL *)

Lemma rstrip_slash_slashes (n : nat) : rstrip_slash (slashes n) = EmptyString.
Proof. induction n as [|n IH]; [reflexivity |]. simpl. now rewrite IH. Qed.

Lemma rstrip_slash_app_slashes (s : string) (n : nat) :
  rstrip_slash (s ++ slashes n) = rstrip_slash s.
Proof.
  induction s as [|c s IH]; simpl; [apply rstrip_slash_slashes |].
  now rewrite IH.
Qed.

Lemma rstrip_slash_decompose (s : string) :
  exists n, s = rstrip_slash s ++ slashes n.
Proof.
  induction s as [|c s [n IH]]; [now exists 0%nat |]. simpl.
  destruct (rstrip_slash s) as [|c' r] eqn:Hr.
  - destruct (Ascii.eqb c "/") eqn:Hc.
    + apply Ascii.eqb_eq in Hc. subst c. exists (S n). simpl. now rewrite IH at 1.
    + exists n. simpl. now rewrite IH at 1.
  - exists n. simpl. now rewrite IH at 1.
Qed.

Lemma rstrip_slash_no_trailing (s t : string) : rstrip_slash s <> t ++ "/".
Proof.
  revert t. induction s as [|c s IH]; intros t; simpl.
  - destruct t; discriminate.
  - destruct (rstrip_slash s) as [|c' r] eqn:Hr.
    + destruct (Ascii.eqb c "/") eqn:Hc; [destruct t; discriminate |].
      apply Ascii.eqb_neq in Hc.
      destruct t as [|c1 [|c2 t]]; unfold String.append; fold String.append;
        try discriminate. intros [= Heq]. contradiction.
    + destruct t as [|c1 t]; unfold String.append; fold String.append.
      * discriminate.
      * intros [= _ Habs]. now apply (IH t).
Qed.

(** X13: the client's base URL is the given URL without its trailing
    slashes: it never ends in a slash, only slashes were removed, and giving
    the URL with extra trailing slashes makes the same client. *)
Theorem new_client_base_url (url key : string) (n : nat) :
  new_client (url ++ slashes n) key = new_client url key /\
  (forall t, base_url (new_client url key) <> t ++ "/") /\
  exists m, url = base_url (new_client url key) ++ slashes m.
Proof.
  unfold new_client. simpl. split; [| split].
  - now rewrite rstrip_slash_app_slashes.
  - apply rstrip_slash_no_trailing.
  - apply rstrip_slash_decompose.
Qed.

(** ** Requests on the wire *)

Lemma fetch_prices_traced {W} (send : Request -> W -> result Response * W)
    (self : CapitalClient) (resolution : string) (session : CapitalSession)
    (epic : string) (st : W * list Request) :
  (fetch_prices (traced send) self resolution session epic st).2.2 =
    (st.2 ++ [prices_request self resolution session epic])%list.
Proof.
  rewrite fetch_prices_request. unfold traced.
  destruct (send _ st.1) as [[response|e] w1]; reflexivity.
Qed.

Lemma place_order_traced {W} (send : Request -> W -> result Response * W)
    (self : CapitalClient) (order_type currency : string)
    (session : CapitalSession) (epic direction : string) (size : Q)
    (st : W * list Request) :
  (place_order (traced send) self order_type currency session epic direction size st).2.2 =
    (st.2 ++ [order_request self order_type currency session epic direction size])%list.
Proof.
  rewrite place_order_request. unfold traced.
  destruct (send _ st.1) as [[response|e] w1]; reflexivity.
Qed.

(** The world an invocation ends in: the one the fetch left, or the one
    the order call left. *)
Lemma execute_trade_world {W} (client : Client W) (session : CapitalSession)
    (epic : string) (trade_size : Q) (dry_run : bool) (w : W) (log : list call) :
  let out := execute_trade client session epic trade_size dry_run (w, log) in
  let w1 := (fetch_prices_impl client session epic w).2 in
  out.2.1 = w1 \/
  exists dir, (dir = "BUY" \/ dir = "SELL") /\ dry_run = false /\
    out.2.1 = (place_order_impl client session epic dir trade_size w1).2.
Proof.
  unfold execute_trade, call_fetch_prices, call_place_order,
    bind, record, on_world, lift, ret. simpl.
  destruct (fetch_prices_impl client session epic w) as [[prices|e] w1]; simpl;
    [| now left].
  destruct (decide_trade prices trade_size) as [d|e] eqn:Hd; simpl; [| now left].
  apply decide_trade_cases in Hd as [-> | [-> | ->]]; simpl; try (now left);
    destruct dry_run; simpl; try (now left).
  - right. exists "BUY". split; [now left |]. split; [reflexivity |].
    now destruct (place_order_impl _ _ _ _ _ _) as [[r|e] w2].
  - right. exists "SELL". split; [now right |]. split; [reflexivity |].
    now destruct (place_order_impl _ _ _ _ _ _) as [[r|e] w2].
Qed.

(** X14: the requests [execute_trade] sends through the real client are
    the GET of the prices (resolution MINUTE_5, max 20) and, in a live run
    only, after it one POST of a position with direction BUY or SELL, the
    given trade size, order type MARKET, currency USD and forceOpen true;
    nothing else is sent. *)
Theorem execute_trade_requests {W} (send : Request -> W -> result Response * W)
    (self : CapitalClient) (session : CapitalSession) (epic : string)
    (trade_size : Q) (dry_run : bool) (w : W) (sent : list Request)
    (log : list call) :
  let out := execute_trade (as_client (traced send) self) session epic
               trade_size dry_run ((w, sent), log) in
  let get_prices := prices_request self "MINUTE_5" session epic in
  out.2.1.2 = (sent ++ [get_prices])%list \/
  exists dir, (dir = "BUY" \/ dir = "SELL") /\ dry_run = false /\
    out.2.1.2 =
      (sent ++ [get_prices;
                order_request self "MARKET" "USD" session epic dir trade_size])%list.
Proof.
  intros out get_prices.
  destruct (execute_trade_world (as_client (traced send) self) session epic
              trade_size dry_run (w, sent) log) as [H | (dir & Hdir & Hdry & H)];
    fold out in H; rewrite H; unfold as_client; cbn [fetch_prices_impl place_order_impl].
  - left. now rewrite fetch_prices_traced.
  - right. exists dir. split; [exact Hdir |]. split; [exact Hdry |].
    rewrite place_order_traced, fetch_prices_traced. cbn [snd].
    now rewrite <- app_assoc.
Qed.

Lemma _headers_lookup (self : CapitalClient) (session : option CapitalSession) :
  _headers self session !! "X-CAP-API-KEY" = Some (api_key self) /\
  _headers self session !! "CST" = cst <$> session /\
  _headers self session !! "X-SECURITY-TOKEN" = security_token <$> session.
Proof. destruct session; repeat split; reflexivity. Qed.

(** X15: every request of the client carries the API key; the prices and
    the order request carry the two tokens of the session they were given,
    and the login request carries no token. *)
Theorem request_headers (self : CapitalClient) (session : CapitalSession)
    (identifier password resolution order_type currency epic dir : string)
    (size : Q) :
  let login := login_request self identifier password in
  let prices := prices_request self resolution session epic in
  let order := order_request self order_type currency session epic dir size in
  (req_headers login !! "X-CAP-API-KEY" = Some (api_key self) /\
   req_headers login !! "CST" = None /\
   req_headers login !! "X-SECURITY-TOKEN" = None) /\
  (forall req, req = prices \/ req = order ->
     req_headers req !! "X-CAP-API-KEY" = Some (api_key self) /\
     req_headers req !! "CST" = Some (cst session) /\
     req_headers req !! "X-SECURITY-TOKEN" = Some (security_token session)).
Proof.
  split; [apply (_headers_lookup self None) |].
  intros req [-> | ->]; apply (_headers_lookup self (Some session)).
Qed.

(** X16: a session returned by [create_session] always carries two
    non-empty tokens, and they are the values of the CST and X-SECURITY-TOKEN
    headers of a login response whose status is outside 400 to 599. *)
Theorem create_session_ok {W} (send : Request -> W -> result Response * W)
    (self : CapitalClient) (identifier password : string) (w w1 : W)
    (session : CapitalSession) :
  create_session send self identifier password w = (Ok session, w1) ->
  exists response,
    send (login_request self identifier password) w = (Ok response, w1) /\
    ~ (400 <= status_code response < 600)%Z /\
    headers_get response "CST" = Some (cst session) /\
    headers_get response "X-SECURITY-TOKEN" = Some (security_token session) /\
    cst session <> EmptyString /\ security_token session <> EmptyString.
Proof.
  unfold create_session, session_of_response.
  destruct (send (login_request self identifier password) w)
    as [[response|e] w'] eqn:Hsend; [| discriminate].
  unfold raise_for_status.
  destruct ((400 <=? status_code response)%Z && (status_code response <? 600)%Z)
    eqn:Hst; simpl; [discriminate |].
  destruct (headers_get response "CST") as [c|] eqn:Hc; simpl; [| discriminate].
  destruct (String.eqb c EmptyString) eqn:Hce; simpl; [discriminate |].
  destruct (headers_get response "X-SECURITY-TOKEN") as [t|] eqn:Ht; simpl;
    [| discriminate].
  destruct (String.eqb t EmptyString) eqn:Hte; simpl; [discriminate |].
  intros [= <- <-]. exists response. simpl.
  apply String.eqb_neq in Hce, Hte.
  repeat split; auto.
  intros [Hlo Hhi]. apply Z.leb_le in Hlo. apply Z.ltb_lt in Hhi.
  rewrite Hlo, Hhi in Hst. discriminate.
Qed.

Lemma create_session_ok_witness :
  exists response,
    (fun _ (w : unit) => (Ok login_ok_response, w))
      (login_request (new_client demo_url "key") "user" "secret") tt
      = (Ok response, tt) /\
    ~ (400 <= status_code response < 600)%Z /\
    headers_get response "CST" = Some (cst (mkSession "abc" "xyz")) /\
    headers_get response "X-SECURITY-TOKEN"
      = Some (security_token (mkSession "abc" "xyz")) /\
    cst (mkSession "abc" "xyz") <> EmptyString /\
    security_token (mkSession "abc" "xyz") <> EmptyString.
Proof.
  apply (create_session_ok (fun _ (w : unit) => (Ok login_ok_response, w))
           (new_client demo_url "key") "user" "secret" tt tt
           (mkSession "abc" "xyz")).
  reflexivity.
Defined.

(** * Properties of [app/config.py] *)

Lemma all_space_lstrip (s : string) : all_space (lstrip s) = all_space s.
Proof.
  induction s as [|c s IH]; [reflexivity |]. simpl.
  destruct (is_space c) eqn:Hc; [exact IH |]. simpl. now rewrite Hc.
Qed.

Lemma rstrip_empty_iff (s : string) :
  rstrip s = EmptyString <-> all_space s = true.
Proof.
  induction s as [|c s IH]; [split; reflexivity |]. simpl.
  destruct (rstrip s) as [|c' r].
  - destruct (is_space c); simpl.
    + split; [intros _; now apply IH | reflexivity].
    + split; discriminate.
  - split; [discriminate |]. rewrite andb_true_iff. intros [_ H].
    apply IH in H. discriminate.
Qed.

Lemma strip_empty_iff (s : string) :
  strip s = EmptyString <-> all_space s = true.
Proof. unfold strip. now rewrite rstrip_empty_iff, all_space_lstrip. Qed.

(** A text that does not start with whitespace. *)
Lemma lstrip_head (s : string) :
  match lstrip s with
  | EmptyString => True
  | String c _ => is_space c = false
  end.
Proof.
  induction s as [|c s IH]; [exact I |]. simpl.
  destruct (is_space c) eqn:Hc; [exact IH | exact Hc].
Qed.

Lemma rstrip_head (s : string) (c : ascii) (r : string) :
  rstrip s = String c r -> exists s', s = String c s'.
Proof.
  destruct s as [|c0 s]; [discriminate |]. simpl.
  destruct (rstrip s); [destruct (is_space c0) |]; intros [= <- _]; eauto.
Qed.

Lemma rstrip_idempotent (s : string) : rstrip (rstrip s) = rstrip s.
Proof.
  induction s as [|c s IH]; [reflexivity |]. simpl.
  destruct (rstrip s) as [|c' r] eqn:Hr.
  - destruct (is_space c) eqn:Hc; [reflexivity |]. simpl. now rewrite Hc.
  - change (rstrip (String c (String c' r)))
      with (match rstrip (String c' r) with
            | EmptyString => if is_space c then EmptyString else String c EmptyString
            | r0 => String c r0
            end).
    now rewrite IH.
Qed.

Lemma strip_idempotent (s : string) : strip (strip s) = strip s.
Proof.
  unfold strip.
  assert (Hl : lstrip (rstrip (lstrip s)) = rstrip (lstrip s)).
  { destruct (rstrip (lstrip s)) as [|c r] eqn:Hr; [reflexivity |].
    destruct (rstrip_head _ _ _ Hr) as [s' Hs'].
    pose proof (lstrip_head s) as Hh. rewrite Hs' in Hh.
    simpl. now rewrite Hh. }
  rewrite Hl. apply rstrip_idempotent.
Qed.

Lemma strip_getenv_empty (env : gmap string string) (name : string) :
  String.eqb (strip (getenv env name EmptyString)) EmptyString
    = unset_or_blank env name.
Proof.
  unfold getenv, unset_or_blank. destruct (env !! name) as [v|]; simpl;
    [| reflexivity].
  destruct (all_space v) eqn:Hv.
  - apply strip_empty_iff in Hv. now rewrite Hv.
  - apply String.eqb_neq. intros H. apply strip_empty_iff in H. congruence.
Qed.

(** X19: in a configuration that [load_config] returns, dry run is on when
    CAPITAL_DRY_RUN is unset, and when it is set exactly when its value
    lower-cased is the word true; the same holds for the demo flag and
    CAPITAL_DEMO, and the base URL is the demo host when the demo flag is on
    and the live host otherwise. *)
Theorem load_config_flags (env : gmap string string)
    (config : Config.CapitalConfig) :
  load_config env = Ok config ->
  (env !! "CAPITAL_DRY_RUN" = None -> Config.dry_run config = true) /\
  (forall v, env !! "CAPITAL_DRY_RUN" = Some v ->
     (Config.dry_run config = true <-> lower v = "true")) /\
  (env !! "CAPITAL_DEMO" = None -> Config.demo config = true) /\
  (forall v, env !! "CAPITAL_DEMO" = Some v ->
     (Config.demo config = true <-> lower v = "true")) /\
  Config.base_url config = (if Config.demo config then demo_url else live_url).
Proof.
  unfold load_config. cbv zeta.
  destruct (_ || _ || _); [discriminate |]. intros [= <-]. simpl.
  unfold getenv. repeat split.
  - now intros ->.
  - rewrite H. simpl. now intros ?%String.eqb_eq.
  - rewrite H. simpl. now intros ?%String.eqb_eq.
  - now intros ->.
  - rewrite H. simpl. now intros ?%String.eqb_eq.
  - rewrite H. simpl. now intros ?%String.eqb_eq.
Qed.

Lemma load_config_flags_witness :
  Config.dry_run example_config = true /\
  Config.base_url example_config = live_url.
Proof.
  destruct (load_config_flags example_env example_config)
    as (Hdry & _ & _ & _ & Hurl); [reflexivity |].
  split; [apply Hdry; reflexivity | exact Hurl].
Defined.

Lemma lstrip_decompose (s : string) : exists pre, s = pre ++ lstrip s.
Proof.
  induction s as [|c s [pre IH]]; [now exists EmptyString |]. simpl.
  destruct (is_space c).
  - exists (String c pre). unfold String.append; fold String.append.
    now rewrite <- IH.
  - now exists EmptyString.
Qed.

Lemma rstrip_decompose (s : string) : exists post, s = rstrip s ++ post.
Proof.
  induction s as [|c s [post IH]]; [now exists EmptyString |]. simpl.
  destruct (rstrip s) as [|c' r] eqn:Hr.
  - destruct (is_space c).
    + exists (String c post). unfold String.append in *. now rewrite IH at 1.
    + exists post. unfold String.append in *; fold String.append in *.
      now rewrite IH at 1.
  - exists post. unfold String.append in *; fold String.append in *.
    now rewrite IH at 1.
Qed.

Lemma strip_decompose (s : string) :
  exists pre post, s = pre ++ strip s ++ post.
Proof.
  destruct (lstrip_decompose s) as [pre Hpre].
  destruct (rstrip_decompose (lstrip s)) as [post Hpost].
  exists pre, post. unfold strip. now rewrite <- Hpost.
Qed.

(** X17: [load_config] raises the "Missing credentials" [ValueError]
    whenever one of the three credential variables is unset, empty or made of
    ASCII whitespace only, whatever the two flags are set to, and it raises no
    other exception. *)
Theorem load_config_rejects_blank (env : gmap string string) :
  (unset_or_blank env "CAPITAL_API_KEY" = true \/
   unset_or_blank env "CAPITAL_IDENTIFIER" = true \/
   unset_or_blank env "CAPITAL_PASSWORD" = true ->
   load_config env = Err missing_credentials) /\
  (forall e, load_config env = Err e -> e = missing_credentials).
Proof.
  unfold load_config. cbv zeta. rewrite !strip_getenv_empty. split.
  - intros [-> | [-> | ->]]; simpl; rewrite ?orb_true_r; reflexivity.
  - intros e. destruct (_ || _ || _); [now intros [= <-] | discriminate].
Qed.

Lemma load_config_part (env : gmap string string) (name : string) :
  unset_or_blank env name = false ->
  exists v pre post,
    env !! name = Some v /\
    v = pre ++ strip (getenv env name EmptyString) ++ post /\
    strip (getenv env name EmptyString) <> EmptyString.
Proof.
  unfold unset_or_blank, getenv. destruct (env !! name) as [v|]; [| discriminate].
  intros Hv. destruct (strip_decompose v) as (pre & post & Hd).
  exists v, pre, post. simpl. repeat split; [exact Hd |].
  intros H. apply strip_empty_iff in H. congruence.
Qed.

(** X18: in a configuration that [load_config] returns, each credential is
    a contiguous part of the value of its variable; it is not empty, and it
    neither starts nor ends with ASCII whitespace (stripping it changes
    nothing). *)
Theorem load_config_credentials_trimmed (env : gmap string string)
    (config : Config.CapitalConfig) :
  load_config env = Ok config ->
  Forall (fun '(name, field) =>
            (exists v pre post, env !! name = Some v /\ v = pre ++ field ++ post) /\
            field <> EmptyString /\ strip field = field)
    [("CAPITAL_API_KEY", Config.api_key config);
     ("CAPITAL_IDENTIFIER", Config.identifier config);
     ("CAPITAL_PASSWORD", Config.password config)].
Proof.
  unfold load_config. cbv zeta. rewrite !strip_getenv_empty.
  destruct (unset_or_blank env "CAPITAL_API_KEY") eqn:Hk; [discriminate |].
  destruct (unset_or_blank env "CAPITAL_IDENTIFIER") eqn:Hi; [discriminate |].
  destruct (unset_or_blank env "CAPITAL_PASSWORD") eqn:Hp; [discriminate |].
  simpl. intros [= <-]. simpl.
  destruct (load_config_part env _ Hk) as (k & kpre & kpost & Hek & Hkd & Hkn).
  destruct (load_config_part env _ Hi) as (i & ipre & ipost & Hei & Hid & Hin).
  destruct (load_config_part env _ Hp) as (p & ppre & ppost & Hep & Hpd & Hpn).
  repeat constructor; eauto using strip_idempotent.
Qed.

Lemma load_config_credentials_trimmed_witness :
  Forall (fun '(name, field) =>
            (exists v pre post,
               example_env !! name = Some v /\ v = pre ++ field ++ post) /\
            field <> EmptyString /\ strip field = field)
    [("CAPITAL_API_KEY", Config.api_key example_config);
     ("CAPITAL_IDENTIFIER", Config.identifier example_config);
     ("CAPITAL_PASSWORD", Config.password example_config)].
Proof.
  apply (load_config_credentials_trimmed example_env example_config). reflexivity.
Defined.

(** * Properties of [app/main.py] *)

Lemma create_session_traced {W} (send : Request -> W -> result Response * W)
    (self : CapitalClient) (identifier password : string)
    (st : W * list Request) :
  (create_session (traced send) self identifier password st).2.2 =
    (st.2 ++ [login_request self identifier password])%list.
Proof.
  unfold create_session, traced.
  destruct (send _ st.1) as [[response|e] w1]; reflexivity.
Qed.

Lemma main_unfold {W} (send : Request -> W -> result Response * W)
    (args : Args.Namespace) (env : gmap string string)
    (config : Config.CapitalConfig) (w : W) :
  load_config env = Ok config ->
  main send args env w =
    match create_session send (client_of config)
            (Config.identifier config) (Config.password config) w with
    | (Err e, w1) => (Err e, w1)
    | (Ok session, w1) =>
        let out := execute_trade (as_client send (client_of config)) session
                     (Args.epic args) (Args.size args) (Config.dry_run config)
                     (w1, []) in
        (out.1, out.2.1)
    end.
Proof. intros H. unfold main. now rewrite H. Qed.

(** X20: without usable credentials [main] raises the configuration error
    before anything is sent: the world and the record of requests are
    untouched. *)
Theorem main_without_credentials {W} (send : Request -> W -> result Response * W)
    (args : Args.Namespace) (env : gmap string string) (w : W)
    (sent : list Request) :
  unset_or_blank env "CAPITAL_API_KEY" = true \/
  unset_or_blank env "CAPITAL_IDENTIFIER" = true \/
  unset_or_blank env "CAPITAL_PASSWORD" = true ->
  main (traced send) args env (w, sent) = (Err missing_credentials, (w, sent)).
Proof.
  intros H. unfold main, load_config. cbv zeta. rewrite !strip_getenv_empty.
  destruct H as [-> | [-> | ->]]; simpl; rewrite ?orb_true_r; reflexivity.
Qed.

Lemma main_without_credentials_witness :
  main (traced (fun _ (w : unit) => (Ok login_ok_response, w)))
    (Args.mkNamespace "GOLD" 1) (delete "CAPITAL_PASSWORD" example_env) (tt, [])
  = (Err missing_credentials, (tt, [])).
Proof.
  apply (main_without_credentials (fun _ (w : unit) => (Ok login_ok_response, w))
           (Args.mkNamespace "GOLD" 1) (delete "CAPITAL_PASSWORD" example_env) tt []).
  right; right. reflexivity.
Defined.

(** X21: with valid credentials [main] first sends the login request; it
    then either stops with an exception, or goes on with the session made
    from the login response and sends the GET of the prices for the given
    epic and, in a live run only, one order POST with direction BUY or SELL
    and the size given on the command line.  All requests go to the
    configured base URL and nothing else is sent. *)
Theorem main_requests {W} (send : Request -> W -> result Response * W)
    (args : Args.Namespace) (env : gmap string string)
    (config : Config.CapitalConfig) (w : W) (sent : list Request) :
  load_config env = Ok config ->
  let out := main (traced send) args env (w, sent) in
  let self := client_of config in
  let login :=
    login_request self (Config.identifier config) (Config.password config) in
  (exists e, out.1 = Err e /\ out.2.2 = (sent ++ [login])%list) \/
  exists session st1,
    create_session (traced send) self
      (Config.identifier config) (Config.password config) (w, sent)
      = (Ok session, st1) /\
    let get_prices := prices_request self "MINUTE_5" session (Args.epic args) in
    (out.2.2 = (sent ++ [login; get_prices])%list \/
     exists dir, (dir = "BUY" \/ dir = "SELL") /\ Config.dry_run config = false /\
       out.2.2 =
         (sent ++ [login; get_prices;
                   order_request self "MARKET" "USD" session (Args.epic args)
                     dir (Args.size args)])%list).
Proof.
  intros Hcfg out self login. unfold out.
  rewrite (main_unfold _ _ _ _ _ Hcfg). fold self.
  pose proof (create_session_traced send self (Config.identifier config)
                (Config.password config) (w, sent)) as Hlogin.
  destruct (create_session (traced send) self (Config.identifier config)
              (Config.password config) (w, sent)) as [[session|e] [w1 sent1]] eqn:Hcs.
  - right. exists session, (w1, sent1). split; [reflexivity |].
    cbn [fst snd] in Hlogin. subst sent1. cbv zeta. cbn [fst snd]. fold login.
    destruct (execute_trade_world (as_client (traced send) self) session
                (Args.epic args) (Args.size args) (Config.dry_run config)
                (w1, (sent ++ [login])%list) [])
      as [H | (dir & Hdir & Hdry & H)];
      rewrite H; unfold as_client; cbn [fetch_prices_impl place_order_impl].
    + left. rewrite fetch_prices_traced. cbn [snd]. now rewrite <- app_assoc.
    + right. exists dir. split; [exact Hdir |]. split; [exact Hdry |].
      rewrite place_order_traced, fetch_prices_traced. cbn [snd].
      now rewrite <- !app_assoc.
  - left. exists e. split; [reflexivity | exact Hlogin].
Qed.

(** X22: when dry run is on, which is the default, the only POST [main]
    ever sends is the login: every other request is a GET, and at most two
    requests are sent. *)
Theorem main_dry_run_no_order {W} (send : Request -> W -> result Response * W)
    (args : Args.Namespace) (env : gmap string string)
    (config : Config.CapitalConfig) (w : W) :
  load_config env = Ok config ->
  Config.dry_run config = true ->
  let out := main (traced send) args env (w, []) in
  let login :=
    login_request (client_of config) (Config.identifier config)
      (Config.password config) in
  (length out.2.2 <= 2)%nat /\
  Forall (fun req => req = login \/ req_method req = GET) out.2.2.
Proof.
  intros Hcfg Hdry out login. subst out.
  rewrite (main_unfold _ _ _ _ _ Hcfg).
  pose proof (create_session_traced send (client_of config)
                (Config.identifier config) (Config.password config) (w, []))
    as Hlogin.
  destruct (create_session (traced send) (client_of config)
              (Config.identifier config) (Config.password config) (w, []))
    as [[session|e] [w1 sent1]]; cbn [fst snd app] in Hlogin; subst sent1.
  - cbv zeta. cbn [fst snd]. fold login.
    destruct (execute_trade_world (as_client (traced send) (client_of config))
                session (Args.epic args) (Args.size args) (Config.dry_run config)
                (w1, [login]) [])
      as [H | (dir & _ & Habs & _)]; [| congruence].
    rewrite H. unfold as_client. cbn [fetch_prices_impl].
    rewrite fetch_prices_traced. cbn [snd app].
    split; [simpl; lia |]. constructor; [now left |].
    constructor; [now right | constructor].
  - cbn [fst snd app]. fold login. split; [simpl; lia |].
    constructor; [now left | constructor].
Qed.

Lemma main_requests_witness :
  (length (main (traced example_send) example_args example_env (tt, [])).2.2
   <= 3)%nat.
Proof.
  destruct (main_requests example_send example_args example_env example_config
              tt [] eq_refl)
    as [(e & _ & H) | (session & st1 & _ & [H | (dir & _ & _ & H)])];
    rewrite H; simpl; lia.
Defined.

Lemma main_dry_run_no_order_witness :
  let out := main (traced example_send) example_args example_env (tt, []) in
  (length out.2.2 <= 2)%nat /\
  Forall (fun req =>
            req = login_request (client_of example_config) "user@example.org" "secret"
            \/ req_method req = GET) out.2.2.
Proof.
  apply (main_dry_run_no_order example_send example_args example_env
           example_config tt); reflexivity.
Defined.

(** * Properties of the binary64 embedding *)

Lemma SFltb_irrefl (x : spec_float) : SFltb x x = false.
Proof.
  unfold SFltb. destruct x as [s|s| |s m e]; simpl; try reflexivity.
  - now destruct s.
  - destruct s; rewrite Z.compare_refl, Pos.compare_cont_refl; reflexivity.
Qed.

Lemma float_ltb_irrefl (x : float) : (x <? x)%float = false.
Proof. rewrite ltb_spec. apply SFltb_irrefl. Qed.

Lemma SFcompare_Lt_Gt (x y : spec_float) :
  SFcompare x y = Some Lt -> SFcompare y x = Some Gt.
Proof.
  destruct x as [sx|sx| |sx mx ex], y as [sy|sy| |sy my ey]; simpl; intros H;
    try discriminate H;
    try (destruct sx; try discriminate H; reflexivity);
    try (destruct sy; try discriminate H; reflexivity);
    try (destruct sx, sy; try discriminate H; reflexivity).
  injection H as H. f_equal.
  assert (E : Pos.compare_cont Eq my mx = CompOpp (Pos.compare_cont Eq mx my))
    by (symmetry; apply (Pos.compare_cont_antisym mx my Eq)).
  destruct sx, sy; try discriminate H; try reflexivity;
    rewrite (Z.compare_antisym ex ey), E;
    destruct (ex ?= ey)%Z; simpl in *; try discriminate H; try reflexivity;
    destruct (Pos.compare_cont Eq mx my); simpl in *; try discriminate H;
    reflexivity.
Qed.

Lemma float_ltb_asym (x y : float) :
  (x <? y)%float = true -> (y <? x)%float = false.
Proof.
  rewrite !ltb_spec. unfold SFltb.
  destruct (SFcompare (Prim2SF x) (Prim2SF y)) as [[]|] eqn:H; try discriminate.
  intros _. now rewrite (SFcompare_Lt_Gt _ _ H).
Qed.


(** ** The signal on doubles *)

Lemma b64_short_window_last (mids : list float) :
  Binary64.short_window mids = Binary64.last_n 5 mids.
Proof. apply (py_slice_from_neg 5). lia. Qed.

Lemma b64_long_window_last (mids : list float) :
  Binary64.long_window mids = Binary64.last_n 20 mids.
Proof. apply (py_slice_from_neg 20). lia. Qed.

Lemma last_n_length {A} (n : nat) (l : list A) :
  length (Binary64.last_n n l) = Nat.min n (length l).
Proof. unfold Binary64.last_n. rewrite length_drop. lia. Qed.

Lemma last_n_all {A} (n : nat) (l : list A) :
  (length l <= n)%nat -> Binary64.last_n n l = l.
Proof.
  intros H. unfold Binary64.last_n.
  now replace (length l - n)%nat with 0%nat by lia.
Qed.

Lemma last_n_nonempty {A} (n : nat) (l : list A) :
  (0 < n)%nat -> l <> [] -> Binary64.last_n n l <> [].
Proof.
  intros Hn Hl Habs. apply (f_equal length) in Habs.
  rewrite last_n_length in Habs. destruct l; [congruence | simpl in Habs; lia].
Qed.

Lemma b64_mean_total (data : list float) :
  data <> [] -> exists m, Binary64.mean data = Ok m.
Proof.
  destruct data as [|x data]; [congruence |]. intros _. unfold Binary64.mean.
  destruct (mapM Binary64.exact_ratio (x :: data)); eauto.
Qed.

Lemma b64_mean_finite (data : list float) (q : Q) :
  data <> [] -> Binary64.exact_mean data = Some q ->
  Binary64.mean data =
    Ok (Binary64.quotient_to_float (Qnum (Qred q)) (Qden (Qred q))).
Proof.
  destruct data as [|x data]; [congruence |]. intros _.
  unfold Binary64.exact_mean, Binary64.mean.
  destruct (mapM Binary64.exact_ratio (x :: data)) as [ratios|]; simpl;
    [| discriminate].
  now intros [= <-].
Qed.

Lemma b64_decide_by_rule (mids : list float) (trade_size : float) :
  mids <> [] ->
  exists short_avg long_avg,
    Binary64.mean (Binary64.last_n 5 mids) = Ok short_avg /\
    Binary64.mean (Binary64.last_n 20 mids) = Ok long_avg /\
    Binary64.decide mids trade_size =
      Ok (Binary64.rule short_avg long_avg trade_size).
Proof.
  intros Hne.
  destruct (b64_mean_total (Binary64.last_n 5 mids)) as [s Hs];
    [apply last_n_nonempty; [lia | exact Hne] |].
  destruct (b64_mean_total (Binary64.last_n 20 mids)) as [l Hl];
    [apply last_n_nonempty; [lia | exact Hne] |].
  exists s, l. split; [exact Hs |]. split; [exact Hl |].
  unfold Binary64.decide.
  rewrite b64_short_window_last, b64_long_window_last, Hs, Hl. simpl.
  unfold Binary64.rule.
  destruct (l <? s)%float; [reflexivity |]. now destruct (s <? l)%float.
Qed.

(** C2, as stated, fails: on the doubles 903.93, 903.93, 903.94, 903.95,
    903.91, 903.92 the exact mean of the last five points is above the exact
    mean of all six, but [statistics.mean] rounds both to the same double and
    the decision is NONE, not BUY. *)
Lemma rounded_means_tie :
  exists short_exact long_exact short_avg,
    Binary64.exact_mean (Binary64.last_n 5 Binary64.tie_series) = Some short_exact /\
    Binary64.exact_mean (Binary64.last_n 20 Binary64.tie_series) = Some long_exact /\
    (long_exact < short_exact)%Q /\
    Binary64.mean (Binary64.short_window Binary64.tie_series) = Ok short_avg /\
    Binary64.mean (Binary64.long_window Binary64.tie_series) = Ok short_avg /\
    Binary64.decide Binary64.tie_series 1 =
      Ok (Binary64.mkDecision "NONE" (Binary64.PInt 0) "no crossover").
Proof.
  eexists _, _, _. split; [vm_compute; reflexivity |].
  split; [vm_compute; reflexivity |]. split; [vm_compute; reflexivity |].
  split; [vm_compute; reflexivity |]. split; vm_compute; reflexivity.
Qed.

(** C2, amended: for a non-empty series, [decide] returns BUY with the
    trade size when the double [statistics.mean] returns for the last 5
    points is above the one it returns for the last 20 points, SELL with the
    trade size when it is below, and NONE with size 0 otherwise; it is NONE in
    particular whenever the exact means of the two windows are equal. *)
Theorem decide_rounded_rule (mids : list float) (trade_size : float) :
  mids <> [] ->
  exists short_avg long_avg,
    Binary64.mean (Binary64.last_n 5 mids) = Ok short_avg /\
    Binary64.mean (Binary64.last_n 20 mids) = Ok long_avg /\
    ((long_avg <? short_avg)%float = true ->
       Binary64.decide mids trade_size =
         Ok (Binary64.mkDecision "BUY" (Binary64.PFloat trade_size)
               "short_avg > long_avg")) /\
    ((short_avg <? long_avg)%float = true ->
       Binary64.decide mids trade_size =
         Ok (Binary64.mkDecision "SELL" (Binary64.PFloat trade_size)
               "short_avg < long_avg")) /\
    ((long_avg <? short_avg)%float = false ->
     (short_avg <? long_avg)%float = false ->
       Binary64.decide mids trade_size =
         Ok (Binary64.mkDecision "NONE" (Binary64.PInt 0) "no crossover")) /\
    (forall short_exact long_exact,
       Binary64.exact_mean (Binary64.last_n 5 mids) = Some short_exact ->
       Binary64.exact_mean (Binary64.last_n 20 mids) = Some long_exact ->
       (short_exact == long_exact)%Q ->
       Binary64.decide mids trade_size =
         Ok (Binary64.mkDecision "NONE" (Binary64.PInt 0) "no crossover")).
Proof.
  intros Hne.
  destruct (b64_decide_by_rule mids trade_size Hne) as (s & l & Hs & Hl & Hd).
  exists s, l. split; [exact Hs |]. split; [exact Hl |].
  rewrite Hd. unfold Binary64.rule. repeat split.
  - now intros ->.
  - intros H. now rewrite (float_ltb_asym _ _ H), H.
  - now intros -> ->.
  - intros se le Hse Hle Heq.
    rewrite (b64_mean_finite _ _ (last_n_nonempty 5 mids ltac:(lia) Hne) Hse) in Hs.
    rewrite (b64_mean_finite _ _ (last_n_nonempty 20 mids ltac:(lia) Hne) Hle) in Hl.
    rewrite (Qred_complete _ _ Heq) in Hs. rewrite Hs in Hl. injection Hl as <-.
    now rewrite float_ltb_irrefl.
Qed.

Lemma decide_rounded_rule_witness :
  Binary64.decide Binary64.rising_series 1 =
    Ok (Binary64.mkDecision "BUY" (Binary64.PFloat 1) "short_avg > long_avg").
Proof.
  destruct (decide_rounded_rule Binary64.rising_series 1)
    as (s & l & Hs & Hl & Hbuy & _); [discriminate |].
  apply Hbuy. vm_compute in Hs, Hl. injection Hs as <-. injection Hl as <-.
  reflexivity.
Defined.

(** C6, as stated, fails: on a series of six points the short average is
    taken over the last five points only and differs from the average of all
    six, and the decision is BUY. *)
Lemma short_window_is_last_five :
  (1 <= length Binary64.rising_series < 20)%nat /\
  Binary64.long_window Binary64.rising_series = Binary64.rising_series /\
  Binary64.short_window Binary64.rising_series = [2; 2; 2; 2; 2]%float /\
  Binary64.short_window Binary64.rising_series <> Binary64.rising_series /\
  Binary64.mean (Binary64.short_window Binary64.rising_series) = Ok 2%float /\
  Binary64.mean Binary64.rising_series = Ok 0x1.d555555555555p+0%float /\
  Binary64.decide Binary64.rising_series 1 =
    Ok (Binary64.mkDecision "BUY" (Binary64.PFloat 1) "short_avg > long_avg").
Proof.
  split; [simpl; lia |]. split; [reflexivity |]. split; [reflexivity |].
  split; [intros H; apply (f_equal length) in H; discriminate H |].
  split; [vm_compute; reflexivity |]. split; vm_compute; reflexivity.
Qed.

(** C6, amended: a series of 1 to 19 points gives a decision without
    error; the long average is taken over all points, the short average over
    the last [min 5 (length mids)] points, which are all points only up to
    length 5, and the decision follows from the two doubles
    [statistics.mean] returns for them. *)
Theorem decide_short_windows (mids : list float) (trade_size : float) :
  (1 <= length mids < 20)%nat ->
  Binary64.long_window mids = mids /\
  Binary64.short_window mids = Binary64.last_n 5 mids /\
  length (Binary64.short_window mids) = Nat.min 5 (length mids) /\
  ((length mids <= 5)%nat -> Binary64.short_window mids = mids) /\
  exists short_avg long_avg,
    Binary64.mean (Binary64.last_n 5 mids) = Ok short_avg /\
    Binary64.mean mids = Ok long_avg /\
    Binary64.decide mids trade_size =
      Ok (if (long_avg <? short_avg)%float then
            Binary64.mkDecision "BUY" (Binary64.PFloat trade_size)
              "short_avg > long_avg"
          else if (short_avg <? long_avg)%float then
            Binary64.mkDecision "SELL" (Binary64.PFloat trade_size)
              "short_avg < long_avg"
          else Binary64.mkDecision "NONE" (Binary64.PInt 0) "no crossover").
Proof.
  intros [Hlo Hhi].
  assert (Hne : mids <> []) by (destruct mids; [simpl in Hlo; lia | discriminate]).
  rewrite b64_short_window_last, b64_long_window_last.
  split; [apply last_n_all; lia |]. split; [reflexivity |].
  split; [apply last_n_length |]. split; [apply last_n_all |].
  destruct (b64_decide_by_rule mids trade_size Hne) as (s & l & Hs & Hl & Hd).
  rewrite (last_n_all 20) in Hl by lia.
  exists s, l. split; [exact Hs |]. split; [exact Hl |]. exact Hd.
Qed.

Lemma decide_short_windows_witness :
  Binary64.long_window Binary64.rising_series = Binary64.rising_series /\
  length (Binary64.short_window Binary64.rising_series) = 5%nat.
Proof.
  destruct (decide_short_windows Binary64.rising_series 1)
    as (Hl & _ & Hlen & _); [simpl; lia |].
  split; [exact Hl | exact Hlen].
Defined.

(** ** The extraction on Python's numbers *)

Lemma b64_extract_loop_step (candle : Binary64.pyval) (rest : list Binary64.pyval)
    (acc : list float) :
  Binary64.extract_loop (candle :: rest) acc =
    match Binary64.resolve "bid" candle, Binary64.resolve "ask" candle with
    | Err e, _ => Err e
    | Ok _, Err e => Err e
    | Ok bid, Ok ask =>
        if Binary64.is_not_none bid && Binary64.is_not_none ask then
          match Binary64.line21 bid ask with
          | Ok mid => Binary64.extract_loop rest (acc ++ [mid])
          | Err e => Err e
          end
        else Binary64.extract_loop rest acc
    end.
Proof.
  cbn [Binary64.extract_loop]. unfold Binary64.line21.
  destruct (Binary64.resolve "bid" candle) as [bid|]; [| reflexivity].
  destruct (Binary64.resolve "ask" candle) as [ask|]; [| reflexivity]. simpl.
  destruct (Binary64.is_not_none bid && Binary64.is_not_none ask); [| reflexivity].
  destruct (Binary64.py_add bid ask) as [s|]; [| reflexivity]. simpl.
  now destruct (Binary64.py_div2 s).
Qed.

Lemma b64_extract_loop_sound (candles : list Binary64.pyval) :
  forall acc series,
    Binary64.extract_loop candles acc = Ok series ->
    series = (acc ++ omap Binary64.midpoint candles)%list.
Proof.
  induction candles as [|c cs IH]; intros acc series.
  - simpl. intros [= <-]. now rewrite app_nil_r.
  - rewrite b64_extract_loop_step. cbn [omap list_omap].
    unfold Binary64.midpoint at 1.
    destruct (Binary64.resolve "bid" c) as [vb|]; [| discriminate].
    destruct (Binary64.resolve "ask" c) as [va|]; [| discriminate].
    destruct (Binary64.is_not_none vb && Binary64.is_not_none va).
    + destruct (Binary64.line21 vb va) as [m|]; [| discriminate].
      intros H. apply IH in H. now rewrite <- app_assoc in H.
    + apply IH.
Qed.

Lemma b64_extract_loop_in_range (candles : list Binary64.pyval) :
  Forall (fun c => (exists v, Binary64.resolve "bid" c = Ok v) /\
                   (exists v, Binary64.resolve "ask" c = Ok v) /\
                   Binary64.in_range c = true) candles ->
  forall acc,
    Binary64.extract_loop candles acc =
      Ok (acc ++ omap Binary64.midpoint candles)%list.
Proof.
  induction 1 as [|c cs ([vb Hb] & [va Ha] & Hr) _ IH]; intros acc.
  - simpl. now rewrite app_nil_r.
  - rewrite b64_extract_loop_step. cbn [omap list_omap].
    unfold Binary64.midpoint at 1. unfold Binary64.in_range in Hr.
    rewrite Hb, Ha in *.
    destruct (Binary64.is_not_none vb && Binary64.is_not_none va).
    + destruct (Binary64.line21 vb va) as [m|]; [| discriminate].
      rewrite IH. now rewrite <- app_assoc.
    + apply IH.
Qed.

Lemma b64_extract_loop_strings (keys : list string) (acc : list float) :
  keys <> [] ->
  Binary64.extract_loop (Binary64.PStr <$> keys) acc = Err AttributeError.
Proof. destruct keys; [congruence | reflexivity]. Qed.

Lemma b64_chars_as_strings (s : string) :
  exists keys, Binary64.chars s = Binary64.PStr <$> keys.
Proof.
  induction s as [|c s [keys IH]]; [now exists [] |].
  exists (String c EmptyString :: keys). simpl. now rewrite IH.
Qed.

Lemma b64_length_omap_le {A B} (f : A -> option B) (l : list A) :
  (length (omap f l) <= length l)%nat.
Proof.
  induction l as [|x l IH]; cbn [omap list_omap]; [simpl; lia |].
  destruct (f x); simpl; lia.
Qed.

(** The extraction through the candle list of the payload: a payload whose
    ["prices"] is not a list never yields a series. *)
Lemma b64_extract_unfold (payload : Binary64.pyval) (mids : list float) :
  Binary64._extract_mid_prices payload = Ok mids ->
  Binary64.extract_loop (Binary64.candles_of payload) [] = Ok mids /\ mids <> [].
Proof.
  unfold Binary64._extract_mid_prices, Binary64.candles_of.
  destruct payload as [| | | | | |d]; simpl; try discriminate.
  assert (Hstr : forall keys,
    ~ (prices <-? Binary64.extract_loop (Binary64.PStr <$> keys) [] ;;
       match prices with [] => Err no_price_data | _ => Ok prices end) = Ok mids).
  { intros [|k keys]; simpl; discriminate. }
  destruct (d !! "prices") as [[| | | | s |l|d']|]; simpl; try discriminate.
  - destruct (b64_chars_as_strings s) as [keys ->]. intros H. now apply Hstr in H.
  - destruct (Binary64.extract_loop l []) as [[|m series]|]; simpl;
      try discriminate. intros [= <-]. split; [reflexivity | discriminate].
  - intros H. now apply Hstr in H.
Qed.

(** X1: whatever the payload, a series returned by the extraction is never
    empty and is exactly the values line 21 computes, in payload order, for
    the candles that have both sides; it is no longer than the candle list. *)
Theorem extract_returns_usable (payload : Binary64.pyval) (mids : list float) :
  Binary64._extract_mid_prices payload = Ok mids ->
  mids <> [] /\
  mids = Binary64.usable_series payload /\
  (length mids <= length (Binary64.candles_of payload))%nat.
Proof.
  intros H. destruct (b64_extract_unfold _ _ H) as [Hloop Hne].
  apply b64_extract_loop_sound in Hloop. simpl in Hloop.
  split; [exact Hne |]. split; [exact Hloop |].
  rewrite Hloop. apply b64_length_omap_le.
Qed.

Lemma extract_returns_usable_witness :
  [4%float] <> [] /\
  [4%float] = Binary64.usable_series Binary64.partial_payload /\
  (length [4%float] <= length (Binary64.candles_of Binary64.partial_payload))%nat.
Proof.
  apply (extract_returns_usable Binary64.partial_payload [4%float]).
  vm_compute. reflexivity.
Defined.






Lemma b64_wf_field_get (ints : bool) (d : gmap string Binary64.pyval)
    (name : string) :
  Binary64.wf_field ints (d !! name) = true ->
  default Binary64.PNone (d !! name) = Binary64.PNone \/
  (exists f, default Binary64.PNone (d !! name) = Binary64.PFloat f) \/
  (ints = true /\ exists z, default Binary64.PNone (d !! name) = Binary64.PInt z).
Proof.
  destruct (d !! name) as [[]|]; simpl; try discriminate; eauto.
Qed.

(** A side of a well-formed candle resolves, to [None] or to a number. *)
Lemma b64_wf_resolve (ints : bool) (d : gmap string Binary64.pyval)
    (name : string) :
  Binary64.wf_field ints (d !! name) = true ->
  match d !! "close" with
  | None => True
  | Some (Binary64.PDict cd) => Binary64.wf_field ints (cd !! name) = true
  | _ => False
  end ->
  Binary64.resolve name (Binary64.PDict d) = Ok Binary64.PNone \/
  (exists f, Binary64.resolve name (Binary64.PDict d) = Ok (Binary64.PFloat f)) \/
  (ints = true /\
   exists z, Binary64.resolve name (Binary64.PDict d) = Ok (Binary64.PInt z)).
Proof.
  intros Hf Hc. unfold Binary64.resolve, Binary64.py_get. simpl.
  assert (Hnested :
    (close <-? Ok (default (Binary64.PDict ∅) (d !! "close")) ;;
     Binary64.py_get_default close name Binary64.PNone) = Ok Binary64.PNone \/
    (exists f,
      (close <-? Ok (default (Binary64.PDict ∅) (d !! "close")) ;;
       Binary64.py_get_default close name Binary64.PNone) = Ok (Binary64.PFloat f)) \/
    (ints = true /\ exists z,
      (close <-? Ok (default (Binary64.PDict ∅) (d !! "close")) ;;
       Binary64.py_get_default close name Binary64.PNone) = Ok (Binary64.PInt z))).
  { destruct (d !! "close") as [[]|]; simpl; try contradiction.
    - destruct (b64_wf_field_get ints _ name Hc) as [-> | [[f ->] | [Hi [z ->]]]];
        eauto.
    - rewrite lookup_empty. now left. }
  destruct (b64_wf_field_get ints d name Hf) as [-> | [[f ->] | [Hi [z ->]]]]; simpl.
  - exact Hnested.
  - destruct (f =? zero)%float; simpl; [exact Hnested | eauto].
  - destruct (z =? 0)%Z; simpl; [exact Hnested | eauto].
Qed.

Lemma b64_wf_candle_resolve (ints : bool) (candle : Binary64.pyval)
    (name : string) :
  Binary64.wf_candle ints candle = true ->
  name = "bid" \/ name = "ask" ->
  Binary64.resolve name candle = Ok Binary64.PNone \/
  (exists f, Binary64.resolve name candle = Ok (Binary64.PFloat f)) \/
  (ints = true /\ exists z, Binary64.resolve name candle = Ok (Binary64.PInt z)).
Proof.
  destruct candle as [| | | | | |d]; simpl; try discriminate.
  rewrite !andb_true_iff. intros [[Hb Ha] Hc] Hname.
  apply b64_wf_resolve.
  - now destruct Hname as [-> | ->].
  - destruct (d !! "close") as [[]|]; simpl in *; try discriminate; try exact I.
    apply andb_true_iff in Hc. now destruct Hname as [-> | ->].
Qed.

(** On numbers line 21 raises nothing but [OverflowError], and nothing at
    all on two floats. *)
Lemma b64_line21_numbers (ints : bool) (bid ask : Binary64.pyval) :
  ((exists f, bid = Binary64.PFloat f) \/ (ints = true /\ exists z, bid = Binary64.PInt z)) ->
  ((exists f, ask = Binary64.PFloat f) \/ (ints = true /\ exists z, ask = Binary64.PInt z)) ->
  (forall e, Binary64.line21 bid ask = Err e -> e = OverflowError) /\
  (ints = false -> Binary64.is_ok (Binary64.line21 bid ask) = true).
Proof.
  unfold Binary64.line21, Binary64.py_add, Binary64.py_div2,
    Binary64.int_to_float, Binary64.int_true_div.
  intros [[fb ->] | [Hi [zb ->]]] [[fa ->] | [Hi' [za ->]]]; simpl;
    (split; [| intros ->; try discriminate; reflexivity]).
  - discriminate.
  - destruct (is_infinity _); simpl; [now intros e [= <-] | discriminate].
  - destruct (is_infinity _); simpl; [now intros e [= <-] | discriminate].
  - destruct (is_infinity _); simpl; [now intros e [= <-] | discriminate].
Qed.

Lemma b64_wf_candle_cases (ints : bool) (candle : Binary64.pyval) :
  Binary64.wf_candle ints candle = true ->
  (exists bid, Binary64.resolve "bid" candle = Ok bid) /\
  (exists ask, Binary64.resolve "ask" candle = Ok ask) /\
  (Binary64.has_both candle = true ->
     exists bid ask,
       Binary64.resolve "bid" candle = Ok bid /\
       Binary64.resolve "ask" candle = Ok ask /\
       (forall e, Binary64.line21 bid ask = Err e -> e = OverflowError)) /\
  (ints = false -> Binary64.in_range candle = true).
Proof.
  intros Hwf.
  pose proof (b64_wf_candle_resolve ints candle "bid" Hwf (or_introl eq_refl)) as Hb.
  pose proof (b64_wf_candle_resolve ints candle "ask" Hwf (or_intror eq_refl)) as Ha.
  assert (Hbv : exists bid, Binary64.resolve "bid" candle = Ok bid)
    by (destruct Hb as [H | [[f H] | [_ [z H]]]]; eauto).
  assert (Hav : exists ask, Binary64.resolve "ask" candle = Ok ask)
    by (destruct Ha as [H | [[f H] | [_ [z H]]]]; eauto).
  split; [exact Hbv |]. split; [exact Hav |].
  unfold Binary64.has_both, Binary64.in_range.
  destruct Hb as [Hb | Hb].
  { rewrite Hb. destruct Hav as [ask ->]. simpl. split; [discriminate | reflexivity]. }
  destruct Ha as [Ha | Ha].
  { rewrite Ha. destruct Hbv as [bid ->]. rewrite andb_false_r.
    split; [discriminate | reflexivity]. }
  assert (Hnum : exists bid ask,
            Binary64.resolve "bid" candle = Ok bid /\
            Binary64.resolve "ask" candle = Ok ask /\
            ((exists f, bid = Binary64.PFloat f) \/
             (ints = true /\ exists z, bid = Binary64.PInt z)) /\
            ((exists f, ask = Binary64.PFloat f) \/
             (ints = true /\ exists z, ask = Binary64.PInt z))).
  { destruct Hb as [[fb Hb] | [Hi [zb Hb]]]; destruct Ha as [[fa Ha] | [Hi' [za Ha]]];
      eexists _, _; (split; [exact Hb |]); (split; [exact Ha |]); split; eauto. }
  destruct Hnum as (bid & ask & Hbid & Hask & Hnb & Hna).
  destruct (b64_line21_numbers ints bid ask Hnb Hna) as [Herr Hok].
  rewrite Hbid, Hask. split.
  - intros _. exists bid, ask. auto.
  - intros Hi. rewrite (Hok Hi). now destruct (_ && _).
Qed.

Lemma b64_extract_loop_error (candles : list Binary64.pyval) :
  Forall (fun c => Binary64.wf_candle true c = true) candles ->
  forall acc e,
    Binary64.extract_loop candles acc = Err e ->
    e = OverflowError /\
    exists c, c ∈ candles /\ Binary64.has_both c = true /\
              Binary64.in_range c = false.
Proof.
  induction 1 as [|c cs Hwf _ IH]; intros acc e; [discriminate |].
  rewrite b64_extract_loop_step.
  destruct (b64_wf_candle_cases true c Hwf) as ([bid Hbid] & [ask Hask] & Hboth & _).
  rewrite Hbid, Hask.
  destruct (Binary64.is_not_none bid && Binary64.is_not_none ask) eqn:Hnn.
  - destruct (Binary64.line21 bid ask) as [mid|e'] eqn:Hl.
    + intros H. destruct (IH _ _ H) as (-> & c' & Hin & Hc').
      split; [reflexivity |]. exists c'. split; [now apply list_elem_of_further | exact Hc'].
    + intros [= <-].
      assert (Hb : Binary64.has_both c = true)
        by (unfold Binary64.has_both; now rewrite Hbid, Hask).
      destruct (Hboth Hb) as (bid' & ask' & Hbid' & Hask' & Herr).
      rewrite Hbid in Hbid'. rewrite Hask in Hask'.
      injection Hbid' as <-. injection Hask' as <-.
      split; [now apply Herr |]. exists c. split; [apply list_elem_of_here |].
      split; [exact Hb |]. unfold Binary64.in_range.
      now rewrite Hbid, Hask, Hnn, Hl.
  - intros H. destruct (IH _ _ H) as (-> & c' & Hin & Hc').
    split; [reflexivity |]. exists c'. split; [now apply list_elem_of_further | exact Hc'].
Qed.

Lemma b64_forallb_Forall {A} (f : A -> bool) (l : list A) :
  forallb f l = true <-> Forall (fun x => f x = true) l.
Proof.
  induction l as [|x l IH]; simpl; [split; [constructor | reflexivity] |].
  rewrite andb_true_iff, IH. split; [intros []; now constructor | now inv 1].
Qed.

Lemma b64_usable_nil (candles : list Binary64.pyval) :
  Forall (fun c => Binary64.in_range c = true) candles ->
  (omap Binary64.midpoint candles = [] <->
   forall c, c ∈ candles -> Binary64.has_both c = false).
Proof.
  induction 1 as [|c cs Hr _ IH]; cbn [omap list_omap].
  - split; [intros _ c H; now apply not_elem_of_nil in H | reflexivity].
  - assert (Hc : Binary64.midpoint c = None <-> Binary64.has_both c = false).
    { unfold Binary64.midpoint, Binary64.has_both, Binary64.in_range in *.
      destruct (Binary64.resolve "bid" c) as [bid|]; [| split; reflexivity].
      destruct (Binary64.resolve "ask" c) as [ask|]; [| split; reflexivity].
      destruct (_ && _); [| split; reflexivity].
      destruct (Binary64.line21 bid ask); [split; discriminate | discriminate]. }
    destruct (Binary64.midpoint c) as [m|] eqn:Hm.
    + split; [discriminate |]. intros H.
      assert (Binary64.has_both c = false) by (apply H, list_elem_of_here).
      apply Hc in H0. discriminate.
    + rewrite IH. split.
      * intros H c' [-> | Hin]%elem_of_cons; [now apply Hc | now apply H].
      * intros H c' Hin. apply H. now apply list_elem_of_further.
Qed.

(** C4, as stated, fails: a payload of the expected shape whose candle has
    the integer 10^400 as bid and ask makes line 21 raise [OverflowError]. *)
Lemma extract_overflow :
  Binary64.wf_payload true (Binary64.prices_payload [Binary64.huge_candle]) = true /\
  Binary64.has_both Binary64.huge_candle = true /\
  Binary64._extract_mid_prices (Binary64.prices_payload [Binary64.huge_candle])
    = Err OverflowError.
Proof. repeat split; vm_compute; reflexivity. Qed.

(** C4, amended: on a payload of the expected shape the extraction raises
    nothing but the "no price data" [ValueError] and [OverflowError]; the
    latter comes from line 21 on a candle that has both sides, and never when
    the numbers of the payload are floats.  When line 21 stays in range, the
    [ValueError] is raised exactly when no candle has both sides, and
    otherwise the candles missing a side are skipped and the midpoints of the
    others returned. *)
Theorem extract_errors (payload : Binary64.pyval) :
  Binary64.wf_payload true payload = true ->
  (forall e, Binary64._extract_mid_prices payload = Err e ->
     e = no_price_data \/ e = OverflowError) /\
  (Binary64._extract_mid_prices payload = Err OverflowError ->
     exists c, c ∈ Binary64.candles_of payload /\
       Binary64.has_both c = true /\ Binary64.in_range c = false) /\
  (forallb Binary64.in_range (Binary64.candles_of payload) = true ->
     (Binary64.usable_series payload = [] <->
        forall c, c ∈ Binary64.candles_of payload -> Binary64.has_both c = false) /\
     (Binary64.usable_series payload = [] <->
        Binary64._extract_mid_prices payload = Err no_price_data) /\
     (Binary64.usable_series payload <> [] ->
        Binary64._extract_mid_prices payload = Ok (Binary64.usable_series payload))) /\
  (Binary64.wf_payload false payload = true ->
     forallb Binary64.in_range (Binary64.candles_of payload) = true).
Proof.
  intros Hwf.
  assert (Hshape : exists candles,
            Binary64.candles_of payload = candles /\
            Forall (fun c => Binary64.wf_candle true c = true) candles /\
            Binary64._extract_mid_prices payload =
              (prices <-? Binary64.extract_loop candles [] ;;
               match prices with [] => Err no_price_data | _ => Ok prices end)).
  { destruct payload as [| | | | | |d]; simpl in Hwf; try discriminate.
    unfold Binary64.candles_of, Binary64._extract_mid_prices. simpl.
    destruct (d !! "prices") as [[]|] eqn:Hp; try discriminate; simpl.
    - eexists. split; [reflexivity |]. split; [now apply b64_forallb_Forall |].
      reflexivity.
    - exists []. repeat split. constructor. }
  destruct Hshape as (candles & Hcs & Hall & Hex).
  unfold Binary64.usable_series. rewrite Hcs, Hex. clear Hex.
  split; [| split; [| split]].
  - intros e. destruct (Binary64.extract_loop candles []) as [[|m s]|e'] eqn:Hl; simpl.
    + intros [= <-]. now left.
    + discriminate.
    + intros [= <-]. right. now apply (b64_extract_loop_error _ Hall _ _ Hl).
  - destruct (Binary64.extract_loop candles []) as [[|m s]|e'] eqn:Hl; simpl;
      try discriminate.
    intros [= ->]. now apply (b64_extract_loop_error _ Hall _ _ Hl).
  - intros Hr%b64_forallb_Forall.
    split; [now apply b64_usable_nil |].
    rewrite (b64_extract_loop_in_range candles).
    + simpl. destruct (omap Binary64.midpoint candles) as [|m s].
      * split; [split; reflexivity | congruence].
      * split; [split; discriminate | reflexivity].
    + rewrite Forall_forall in *. intros c Hc.
      destruct (b64_wf_candle_cases true c (Hall c Hc)) as (Hb & Ha & _).
      auto.
  - intros Hf. apply b64_forallb_Forall.
    destruct payload as [| | | | | |d]; simpl in Hf, Hcs; try discriminate.
    destruct (d !! "prices") as [[]|]; try discriminate; subst candles;
      [| constructor].
    apply b64_forallb_Forall in Hf. eapply Forall_impl; [exact Hf |].
    intros c Hc. now apply (b64_wf_candle_cases false c Hc).
Qed.

Lemma extract_errors_witness :
  Binary64._extract_mid_prices Binary64.partial_payload = Ok [4%float].
Proof.
  destruct (extract_errors Binary64.partial_payload) as (_ & _ & Hin & _);
    [reflexivity |].
  destruct Hin as (_ & _ & Hok); [vm_compute; reflexivity |].
  apply Hok. vm_compute. discriminate.
Defined.
